(** * CT: attenuation objects and projection grids

    A shallow embedding of [attenuation_object.py] and [projection.py].

    The methods are read twice.  In the first reading numbers are exact
    rationals [Q], the comparison [==] of the source is [Qeq], and the
    operands of [/] are numbers of Python ([int], [float]), for which a zero
    divisor raises.  The theorems are proved on this reading, and those that
    state a property of the program are the ones that do not depend on how a
    sum, a product or a quotient is rounded.  In the second reading (module
    [F64]) numbers are IEEE binary64 numbers, as in CPython and numpy, and
    the methods can be evaluated on concrete inputs with the rounding the
    program performs.

    The routines of numpy and scipy that the source calls ([np.cos],
    [np.sin], [np.sqrt], [scipy.integrate.quad]) are not part of the
    repository: they are the fields of a record [NumLib] that every
    definition depending on them takes as an argument.  Exceptions are
    values of [exn], and a call that can raise returns a [result]. *)

From Stdlib Require Import QArith Qround Qabs ZArith Lia Lqa Permutation.
From Stdlib Require PrimFloat FloatOps SpecFloat.
From stdpp Require Import base list strings.

Local Open Scope Q_scope.

(** ** The Python runtime the source relies on *)

Module Py.

Inductive exn : Set :=
| ValueError
| ZeroDivisionError
| IndexError
| NameError
| RuntimeError
| NotImplementedError
| OverflowError.

Inductive result (A : Type) : Type :=
| Ok (a : A)
| Raise (e : exn).
Arguments Ok {A} a.
Arguments Raise {A} e.

Definition bind {A B} (c : result A) (k : A -> result B) : result B :=
  match c with
  | Ok a => k a
  | Raise e => Raise e
  end.

(** [a < b] and [a <= b] on numbers. *)
Definition lt (a b : Q) : bool := negb (Qle_bool b a).
Definition le (a b : Q) : bool := Qle_bool a b.

(** [min(a, b)] keeps its first argument unless the second is smaller;
    [max(a, b)] keeps its first argument unless the second is larger. *)
Definition min2 (a b : Q) : Q := if lt b a then b else a.
Definition max2 (a b : Q) : Q := if lt a b then b else a.

(** [min(seq)] and [max(seq)]: [ValueError] on an empty sequence. *)
Definition min (l : list Q) : result Q :=
  match l with
  | [] => Raise ValueError
  | a :: l' => Ok (fold_left min2 l' a)
  end.

Definition max (l : list Q) : result Q :=
  match l with
  | [] => Raise ValueError
  | a :: l' => Ok (fold_left max2 l' a)
  end.

(** [a / b]: true division, [ZeroDivisionError] when [b == 0]. *)
Definition div (a b : Q) : result Q :=
  if Qeq_bool b 0 then Raise ZeroDivisionError else Ok (a / b).

(** [int(q)] truncates towards zero. *)
Definition int (q : Q) : Z := Z.quot (Qnum q) (Zpos (Qden q)).

(** [range(n)]: the integers [0 .. n-1], empty when [n <= 0]. *)
Definition range (n : Z) : list Z := map Z.of_nat (seq 0 (Z.to_nat n)).

(** A [for] loop threading the mutated state through a fallible body. *)
Fixpoint for_each {S : Type} (l : list Z) (body : Z -> S -> result S)
    (s : S) : result S :=
  match l with
  | [] => Ok s
  | i :: l' => bind (body i s) (for_each l' body)
  end.

(** A [for] loop over any sequence of items. *)
Fixpoint for_in {A S : Type} (l : list A) (body : A -> S -> result S)
    (s : S) : result S :=
  match l with
  | [] => Ok s
  | a :: l' => bind (body a s) (for_in l' body)
  end.

End Py.

Import Py.

#[global] Instance result_ret : MRet Py.result := @Py.Ok.
#[global] Instance result_bind : MBind Py.result :=
  fun A B k c => Py.bind c k.

(** ** numpy arrays, as the source uses them *)

Module Np.

(** A two-dimensional array is the list of its rows. *)
Abbreviation ndarray2 := (list (list Q)).

(** [np.zeros((n, m))]: negative dimensions are refused. *)
Definition zeros (n m : Z) : result ndarray2 :=
  if ((n <? 0) || (m <? 0))%Z then Raise ValueError
  else Ok (replicate (Z.to_nat n) (replicate (Z.to_nat m) 0)).

(** An index along one axis of length [n]: a negative index counts from
    the end, anything outside [-n .. n-1] is an [IndexError]. *)
Definition axis_index (n : nat) (i : Z) : result nat :=
  if ((0 <=? i) && (i <? Z.of_nat n))%Z then Ok (Z.to_nat i)
  else if ((- Z.of_nat n <=? i) && (i <? 0))%Z then Ok (Z.to_nat (Z.of_nat n + i))
  else Raise IndexError.

Definition getitem1 {A} (l : list A) (i : Z) : result A :=
  k ← axis_index (length l) i;
  match l !! k with
  | Some a => Ok a
  | None => Raise IndexError
  end.

(** [data[i, j]] *)
Definition getitem (data : ndarray2) (i j : Z) : result Q :=
  row ← getitem1 data i;
  getitem1 row j.

(** [data[i, j] += v] *)
Definition iadd (data : ndarray2) (i j : Z) (v : Q) : result ndarray2 :=
  row ← getitem1 data i;
  old ← getitem1 row j;
  ki ← axis_index (length data) i;
  kj ← axis_index (length row) j;
  Ok (<[ki := <[kj := old + v]> row]> data).

(** [data[i, j] = v] *)
Definition setitem (data : ndarray2) (i j : Z) (v : Q) : result ndarray2 :=
  ki ← axis_index (length data) i;
  match data !! ki with
  | Some row =>
      kj ← axis_index (length row) j;
      Ok (<[ki := <[kj := v]> row]> data)
  | None => Raise IndexError
  end.

(** [np.ndindex((n, m))]: the index pairs of an array of shape [(n, m)],
    the last index running fastest. *)
Definition ndindex (n m : nat) : list (Z * Z) :=
  map (fun ij => (Z.of_nat (fst ij), Z.of_nat (snd ij)))
    (list_prod (seq 0 n) (seq 0 m)).

End Np.

(** ** numpy and scipy routines, taken as parameters *)

Record NumLib : Type := {
  np_cos : Q -> Q;
  np_sin : Q -> Q;
  np_sqrt : Q -> Q;
  (** [scipy.integrate.quad(f, a, b)[0]] *)
  quad : (Q -> Q) -> Q -> Q -> Q
}.

(** ** attenuation_object.py *)

Module Rectangle.

Record t : Type := mk {
  x1 : Q; x2 : Q; y1 : Q; y2 : Q; attenuation_factor : Q
}.

Definition __init__ (x1 x2 y1 y2 attenuation_factor : Q) : t :=
  {| x1 := Py.min2 x1 x2;
     x2 := Py.max2 x1 x2;
     y1 := Py.min2 y1 y2;
     y2 := Py.max2 y1 y2;
     attenuation_factor := attenuation_factor |}.

Definition attenuation (self : t) (x y : Q) : Q :=
  if Py.le (x1 self) x && Py.le x (x2 self)
     && (Py.le (y1 self) y && Py.le y (y2 self))
  then attenuation_factor self
  else 0.

End Rectangle.

Module Circle.

Record t : Type := mk {
  x0 : Q; y0 : Q; r : Q; attenuation_factor : Q
}.

Definition __init__ (x0 y0 r attenuation_factor : Q) : t :=
  {| x0 := x0; y0 := y0; r := Qabs r;
     attenuation_factor := attenuation_factor |}.

Definition attenuation (lib : NumLib) (self : t) (x y : Q) : Q :=
  if Py.le (np_sqrt lib ((x - x0 self) ^ 2 + (y - y0 self) ^ 2)) (r self)
  then attenuation_factor self
  else 0.

End Circle.

(** The instances of the subclasses of [AttenuationObject].  An instance of
    [Rectangle], [Circle] or [ObjectCollection] is given by its fields.  An
    instance of any other subclass ([ImageObject], which reads its pixels
    through PIL, or a class of the caller) is given by its [attenuation]
    method, a function of the point. *)
#[warnings="-register-all"]
Inductive AttenuationObject : Type :=
| ARectangle (o : Rectangle.t)
| ACircle (o : Circle.t)
| AObjectCollection (objects : list AttenuationObject)
| AOther (attenuation : Q -> Q -> Q).

(** The values a caller can hand to [ObjectCollection.append]. *)
Inductive pyvalue : Type :=
| PObject (o : AttenuationObject)
| PNumber (q : Q)
| PNone.

Module ObjectCollection.

(** The field [self.objects]. *)
Definition t : Type := list AttenuationObject.

Definition __init__ : t := [].

Definition append (self : t) (obj : pyvalue) : result t :=
  match obj with
  | PObject o => Ok (self ++ [o])
  | _ => Raise RuntimeError
  end.

End ObjectCollection.

Section Attenuation.

Variable lib : NumLib.

(** [obj.attenuation(x, y)], dispatched on the class of [obj].  The
    collection starts from [0] and adds its members in order. *)
Fixpoint attenuation (self : AttenuationObject) (x y : Q) : Q :=
  match self with
  | ARectangle o => Rectangle.attenuation o x y
  | ACircle o => Circle.attenuation lib o x y
  | AObjectCollection objects =>
      fold_left (fun acc obj => acc + attenuation obj x y) objects 0
  | AOther f => f x y
  end.

(** [AttenuationObject.project_attenuation] *)
Definition project_attenuation (self : AttenuationObject)
    (theta xi : Q) (eta_range : Q * Q) : Q :=
  let integrand_eta := fun eta =>
    let x := xi * np_cos lib theta + eta * np_sin lib theta in
    let y := eta * np_cos lib theta - xi * np_sin lib theta in
    attenuation self x y in
  quad lib integrand_eta (fst eta_range) (snd eta_range).

(** [AttenuationObject.to_array]; [x] and [y] are one-dimensional arrays,
    [x.size] and [y.size] their lengths, and [data.shape] is the pair of
    these lengths. *)
Definition to_array (self : AttenuationObject) (x y : list Q)
    : result Np.ndarray2 :=
  data ← Np.zeros (Z.of_nat (length x)) (Z.of_nat (length y));
  Py.for_in (Np.ndindex (length x) (length y))
    (fun idx data =>
       xv ← Np.getitem1 x (fst idx);
       yv ← Np.getitem1 y (snd idx);
       Np.setitem data (fst idx) (snd idx) (attenuation self xv yv))
    data.

End Attenuation.

(** ** projection.py

    The methods are read one by one, as they are written.  ([back_project]
    is not valid Python, see below.) *)

Module Projection.

Record t : Type := mk {
  theta_min : Q;
  theta_max : Q;
  theta_steps : Z;
  theta_step_size : Q;
  xi_min : Q;
  xi_max : Q;
  xi_steps : Z;
  xi_step_size : Q;
  data : Np.ndarray2
}.

Definition set_data (self : t) (d : Np.ndarray2) : t :=
  {| theta_min := theta_min self;
     theta_max := theta_max self;
     theta_steps := theta_steps self;
     theta_step_size := theta_step_size self;
     xi_min := xi_min self;
     xi_max := xi_max self;
     xi_steps := xi_steps self;
     xi_step_size := xi_step_size self;
     data := d |}.

Definition __init__ (theta_range : list Q) (theta_steps : Z)
    (xi_range : list Q) (xi_steps : Z) : result t :=
  theta_min ← Py.min theta_range;
  theta_max ← Py.max theta_range;
  theta_step_size ← Py.div (theta_max - theta_min) (inject_Z theta_steps);
  xi_min ← Py.min xi_range;
  xi_max ← Py.max xi_range;
  xi_step_size ← Py.div (xi_max - xi_min) (inject_Z xi_steps);
  data ← Np.zeros theta_steps xi_steps;
  Ok {| theta_min := theta_min;
        theta_max := theta_max;
        theta_steps := theta_steps;
        theta_step_size := theta_step_size;
        xi_min := xi_min;
        xi_max := xi_max;
        xi_steps := xi_steps;
        xi_step_size := xi_step_size;
        data := data |}.

Definition theta (self : t) (idx : Z) : Q :=
  theta_min self + inject_Z idx * theta_step_size self.

Definition xi (self : t) (idx : Z) : Q :=
  xi_min self + inject_Z idx * xi_step_size self.

Definition get_continuous_custom (self : t) (theta_idx : Z) (xi : Q)
    (data : Np.ndarray2) : result Q :=
  xi_idx ← Py.div (xi - xi_min self) (xi_step_size self);
  if Py.lt xi_idx 0 then Np.getitem data theta_idx 0
  else if Py.le (inject_Z (xi_steps self)) xi_idx
       then Np.getitem data theta_idx (-1)
       else Np.getitem data theta_idx (Py.int xi_idx).

Definition get_continuous (self : t) (theta_idx : Z) (xi : Q) : result Q :=
  get_continuous_custom self theta_idx xi (data self).

Section WithLib.

Variable lib : NumLib.

(** The statement in the body of the two loops of [add_object]. *)
Definition add_object_cell (obj : AttenuationObject) (eta_range : Q * Q)
    (theta_idx xi_idx : Z) (self : t) : result t :=
  d ← Np.iadd (data self) theta_idx xi_idx
        (project_attenuation lib obj (theta self theta_idx)
           (xi self xi_idx) eta_range);
  Ok (set_data self d).

Definition add_object (self : t) (obj : AttenuationObject)
    (eta_range : Q * Q) : result t :=
  Py.for_each (Py.range (theta_steps self))
    (fun theta_idx self =>
       Py.for_each (Py.range (xi_steps self))
         (fun xi_idx => add_object_cell obj eta_range theta_idx xi_idx)
         self)
    self.

End WithLib.

(** *** [back_project]

    The text of the method is refused by the Python parser: the headers of
    its two [for] statements lack the colon, and in the call of
    [project_attenuation] a positional argument follows a keyword argument.
    The definition reads the body with the loop headers completed.  The
    right-hand side of the assignment is evaluated first, and there the
    names [project_attenuation] and [theta] are looked up; neither is a
    local of the method, a name of the module or a builtin.  The method has
    no [return] statement, so a call that runs to the end yields [None]. *)

Definition module_names : list string :=
  ["np"; "sp"; "scipy"; "Projection"].

Definition builtin_names : list string :=
  ["range"; "min"; "max"; "int"; "NotImplementedError"].

Definition back_project_locals : list string :=
  ["self"; "matrix"; "x"; "y"].

Definition load_name (locals : list string) (name : string) : result unit :=
  if decide (name ∈ locals ++ module_names ++ builtin_names)
  then Ok tt
  else Raise NameError.

Definition back_project (self : t) : result (option Np.ndarray2) :=
  matrix ← Np.zeros (xi_steps self) (xi_steps self);
  _ ← Py.for_each (Py.range (xi_steps self))
        (fun x matrix =>
           Py.for_each (Py.range (xi_steps self))
             (fun y matrix =>
                _ ← load_name back_project_locals "project_attenuation";
                _ ← load_name back_project_locals "theta";
                Ok matrix)
             matrix)
        matrix;
  Ok None.

Definition filtered_back_project (self : t) (f : Q -> Q)
    : result Np.ndarray2 :=
  Raise NotImplementedError.

End Projection.

(** ** The same methods on binary64 numbers

    The definitions above compute with exact rationals.  The source computes
    with IEEE binary64 numbers, and where a result depends on how a sum or a
    quotient is rounded the two differ.  The module [F64] reads the methods
    whose result can depend on rounding a second time, operation for
    operation, on the kernel's binary64 numbers, so that they can be
    evaluated on concrete inputs as CPython evaluates them.

    An operand of a division is either a number of Python itself ([int],
    [float]) or a numpy scalar ([np.float64]); [/] raises
    [ZeroDivisionError] on a zero divisor in the first case and returns an
    infinity or a NaN in the second. *)

Module F64.

Import PrimFloat.

Inductive operand : Set :=
| Builtin
| Numpy.

Definition lt (a b : float) : bool := PrimFloat.ltb a b.
Definition le (a b : float) : bool := PrimFloat.leb a b.

Definition min2 (a b : float) : float := if lt b a then b else a.
Definition max2 (a b : float) : float := if lt a b then b else a.

Definition min (l : list float) : result float :=
  match l with
  | [] => Raise ValueError
  | a :: l' => Ok (fold_left min2 l' a)
  end.

Definition max (l : list float) : result float :=
  match l with
  | [] => Raise ValueError
  | a :: l' => Ok (fold_left max2 l' a)
  end.

Definition div (k : operand) (a b : float) : result float :=
  match k with
  | Builtin =>
      if PrimFloat.eqb b 0%float then Raise ZeroDivisionError
      else Ok (PrimFloat.div a b)
  | Numpy => Ok (PrimFloat.div a b)
  end.

(** The binary64 number nearest to an integer. *)
Definition of_Z (z : Z) : float :=
  FloatOps.SF2Prim
    (SpecFloat.binary_normalize FloatOps.prec FloatOps.emax z 0%Z false).

(** [int(x)]: truncation towards zero; [ValueError] on a NaN,
    [OverflowError] on an infinity. *)
Definition int (x : float) : result Z :=
  match FloatOps.Prim2SF x with
  | SpecFloat.S754_zero _ => Ok 0%Z
  | SpecFloat.S754_finite s m e =>
      let v := if (0 <=? e)%Z then (Zpos m * 2 ^ e)%Z
               else Z.quot (Zpos m) (2 ^ (- e)) in
      Ok (if s then (- v)%Z else v)
  | SpecFloat.S754_infinity _ => Raise OverflowError
  | SpecFloat.S754_nan => Raise ValueError
  end.


#[warnings="-inexact-float"]
Definition tenth : float := 0.1%float.
#[warnings="-inexact-float"]
Definition fifth : float := 0.2%float.
#[warnings="-inexact-float"]
Definition three_tenths : float := 0.3%float.
Definition half : float := 0.5%float.

Definition zeros (n m : Z) : result (list (list float)) :=
  if ((n <? 0) || (m <? 0))%Z then Raise ValueError
  else Ok (replicate (Z.to_nat n) (replicate (Z.to_nat m) 0%float)).

Definition getitem (data : list (list float)) (i j : Z) : result float :=
  row ← Np.getitem1 data i;
  Np.getitem1 row j.

Module Rectangle.

Record t : Type := mk {
  x1 : float; x2 : float; y1 : float; y2 : float; attenuation_factor : float
}.

Definition __init__ (x1 x2 y1 y2 attenuation_factor : float) : t :=
  {| x1 := min2 x1 x2;
     x2 := max2 x1 x2;
     y1 := min2 y1 y2;
     y2 := max2 y1 y2;
     attenuation_factor := attenuation_factor |}.

Definition attenuation (self : t) (x y : float) : float :=
  if le (x1 self) x && le x (x2 self)
     && (le (y1 self) y && le y (y2 self))
  then attenuation_factor self
  else 0%float.

End Rectangle.

(** Rectangles and collections; a circle's density goes through the power
    and square root routines of the C library and is left out. *)
#[warnings="-register-all"]
Inductive AttenuationObject : Type :=
| ARectangle (o : Rectangle.t)
| AObjectCollection (objects : list AttenuationObject).

Fixpoint attenuation (self : AttenuationObject) (x y : float) : float :=
  match self with
  | ARectangle o => Rectangle.attenuation o x y
  | AObjectCollection objects =>
      fold_left (fun acc obj => PrimFloat.add acc (attenuation obj x y))
        objects 0%float
  end.

Module Projection.

Record t : Type := mk {
  theta_min : float;
  theta_max : float;
  theta_steps : Z;
  theta_step_size : float;
  xi_min : float;
  xi_max : float;
  xi_steps : Z;
  xi_step_size : float;
  data : list (list float)
}.

(** [k] tells whether the bounds are numbers of Python or numpy scalars. *)
Definition __init__ (k : operand) (theta_range : list float)
    (theta_steps : Z) (xi_range : list float) (xi_steps : Z) : result t :=
  theta_min ← min theta_range;
  theta_max ← max theta_range;
  theta_step_size ← div k (PrimFloat.sub theta_max theta_min)
                       (of_Z theta_steps);
  xi_min ← min xi_range;
  xi_max ← max xi_range;
  xi_step_size ← div k (PrimFloat.sub xi_max xi_min) (of_Z xi_steps);
  data ← zeros theta_steps xi_steps;
  Ok {| theta_min := theta_min;
        theta_max := theta_max;
        theta_steps := theta_steps;
        theta_step_size := theta_step_size;
        xi_min := xi_min;
        xi_max := xi_max;
        xi_steps := xi_steps;
        xi_step_size := xi_step_size;
        data := data |}.

Definition theta (self : t) (idx : Z) : float :=
  PrimFloat.add (theta_min self)
    (PrimFloat.mul (of_Z idx) (theta_step_size self)).

Definition xi (self : t) (idx : Z) : float :=
  PrimFloat.add (xi_min self) (PrimFloat.mul (of_Z idx) (xi_step_size self)).

(** [k] tells whether [xi] or a field of the grid is a numpy scalar. *)
Definition get_continuous_custom (k : operand) (self : t) (theta_idx : Z)
    (xi : float) (data : list (list float)) : result float :=
  xi_idx ← div k (PrimFloat.sub xi (xi_min self)) (xi_step_size self);
  if lt xi_idx 0%float then getitem data theta_idx 0
  else if le (of_Z (xi_steps self)) xi_idx
       then getitem data theta_idx (-1)
       else j ← int xi_idx; getitem data theta_idx j.

Definition get_continuous (k : operand) (self : t) (theta_idx : Z)
    (xi : float) : result float :=
  get_continuous_custom k self theta_idx xi (data self).

End Projection.

End F64.

(** ** A concrete numeric library for evaluating examples

    [quad] is the one-panel midpoint rule, [np_cos] and [np_sin] are
    truncated Taylor polynomials and [np_sqrt] is an integer square root on
    six decimals.  At the inputs of the examples below they return what
    numpy and scipy return there. *)

Definition example_lib : NumLib :=
  {| np_cos := fun t => 1 - t * t / 2;
     np_sin := fun t => t;
     np_sqrt := fun q =>
       Z.sqrt (Qfloor (q * 1000000000000)) # 1000000;
     quad := fun f a b => f ((a + b) / 2) * (b - a) |}.

(** ** Vocabulary of the statements *)

(** The point [(x, y)] lies within the closed bounds of a rectangle. *)
Definition inside_rectangle (o : Rectangle.t) (x y : Q) : Prop :=
  (Rectangle.x1 o <= x /\ x <= Rectangle.x2 o)
  /\ (Rectangle.y1 o <= y /\ y <= Rectangle.y2 o).

(** The sum of the members' densities, written as the specification
    writes it. *)
Definition sum_attenuation (lib : NumLib)
    (objects : list AttenuationObject) (x y : Q) : Q :=
  fold_right (fun obj s => attenuation lib obj x y + s) 0 objects.

(** The factors of an object and of all the members below it are at least
    [0]; for a member of another class, its density is. *)
Fixpoint factors_nonneg (o : AttenuationObject) : Prop :=
  match o with
  | ARectangle r => 0 <= Rectangle.attenuation_factor r
  | ACircle c => 0 <= Circle.attenuation_factor c
  | AObjectCollection objects =>
      fold_right (fun m rest => factors_nonneg m /\ rest) True objects
  | AOther f => forall x y, 0 <= f x y
  end.

(** A quadrature is oriented when exchanging its limits changes the sign of
    its value, as it does for [scipy.integrate.quad]. *)
Definition quad_oriented (lib : NumLib) : Prop :=
  forall (f : Q -> Q) (a b : Q), quad lib f a b == - quad lib f b a.

(** [data[i][j]] for indices counted from [0]. *)
Definition cell (d : Np.ndarray2) (i j : nat) : option Q :=
  match d !! i with
  | Some row => row !! j
  | None => None
  end.

(** An array of [rows] rows of [cols] entries. *)
Definition shaped (rows cols : nat) (d : Np.ndarray2) : Prop :=
  length d = rows /\ Forall (fun row => length row = cols) d.

(** What the constructor establishes and [add_object] keeps. *)
Record wf (p : Projection.t) : Prop := {
  wf_theta_steps : (0 < Projection.theta_steps p)%Z;
  wf_xi_steps : (0 < Projection.xi_steps p)%Z;
  wf_theta_range : Projection.theta_min p <= Projection.theta_max p;
  wf_xi_range : Projection.xi_min p <= Projection.xi_max p;
  wf_theta_step_size :
    Projection.theta_step_size p
    = (Projection.theta_max p - Projection.theta_min p)
      / inject_Z (Projection.theta_steps p);
  wf_xi_step_size :
    Projection.xi_step_size p
    = (Projection.xi_max p - Projection.xi_min p)
      / inject_Z (Projection.xi_steps p);
  wf_data :
    shaped (Z.to_nat (Projection.theta_steps p))
      (Z.to_nat (Projection.xi_steps p)) (Projection.data p)
}.

Definition example_grid : Projection.t :=
  Projection.mk 0 3 2 ((3 - 0) / inject_Z 2) (-2) 2 2 ((2 - -2) / inject_Z 2)
    [[0; 0]; [0; 0]].

(** The fractional column index computed by the method. *)
Definition xi_index (p : Projection.t) (xi : Q) : Q :=
  (xi - Projection.xi_min p) / Projection.xi_step_size p.

(** The row lengths of an array: its shape. *)
Definition shape (d : Np.ndarray2) : list nat := length <$> d.

(** The fields of a grid other than [data]. *)
Definition same_parameters (p q : Projection.t) : Prop :=
  Projection.theta_min q = Projection.theta_min p
  /\ Projection.theta_max q = Projection.theta_max p
  /\ Projection.theta_steps q = Projection.theta_steps p
  /\ Projection.theta_step_size q = Projection.theta_step_size p
  /\ Projection.xi_min q = Projection.xi_min p
  /\ Projection.xi_max q = Projection.xi_max p
  /\ Projection.xi_steps q = Projection.xi_steps p
  /\ Projection.xi_step_size q = Projection.xi_step_size p.

(** What [add_object] leaves unchanged. *)
Definition frame (p q : Projection.t) : Prop :=
  same_parameters p q
  /\ shape (Projection.data q) = shape (Projection.data p).

(** What one call adds to the cell [(a, b)] of the grid [p]. *)
Definition contribution (lib : NumLib) (obj : AttenuationObject)
    (eta_range : Q * Q) (p : Projection.t) (a b : nat) : Q :=
  project_attenuation lib obj (Projection.theta p (Z.of_nat a))
    (Projection.xi p (Z.of_nat b)) eta_range.

(** [x] lies between [a] and [b], whichever of the two is the smaller. *)
Definition between (a b x : Q) : Prop :=
  (a <= x /\ x <= b) \/ (b <= x /\ x <= a).

(** A square root that is [0] at [0]. *)
Definition sqrt_of_zero (lib : NumLib) : Prop :=
  forall q : Q, q == 0 -> np_sqrt lib q == 0.

(** ** Induction over nested collections *)

Section AttenuationObjectInd.

Variable P : AttenuationObject -> Prop.
Hypothesis P_rectangle : forall o, P (ARectangle o).
Hypothesis P_circle : forall o, P (ACircle o).
Hypothesis P_collection :
  forall objects, Forall P objects -> P (AObjectCollection objects).
Hypothesis P_other : forall f, P (AOther f).

Fixpoint AttenuationObject_nested_ind (o : AttenuationObject) : P o :=
  match o with
  | ARectangle r => P_rectangle r
  | ACircle c => P_circle c
  | AObjectCollection objects =>
      P_collection objects
        ((fix members (l : list AttenuationObject) : Forall P l :=
            match l with
            | [] => @Stdlib.Lists.List.Forall_nil _ P
            | m :: l' =>
                @Stdlib.Lists.List.Forall_cons _ P m l'
                  (AttenuationObject_nested_ind m) (members l')
            end) objects)
  | AOther f => P_other f
  end.

End AttenuationObjectInd.

(** ** Comparisons *)

Lemma le_true a b : Py.le a b = true <-> a <= b.
Proof. apply Qle_bool_iff. Qed.

Lemma le_false a b : Py.le a b = false <-> b < a.
Proof.
  unfold Py.le. split; intros H.
  - apply Qnot_le_lt. intros Hle. apply Qle_bool_iff in Hle. congruence.
  - destruct (Qle_bool a b) eqn:E; [|reflexivity].
    apply Qle_bool_iff in E. exfalso. eapply Qlt_not_le; eassumption.
Qed.

Lemma lt_true a b : Py.lt a b = true <-> a < b.
Proof. unfold Py.lt. rewrite negb_true_iff. apply le_false. Qed.

Lemma lt_false a b : Py.lt a b = false <-> b <= a.
Proof. unfold Py.lt. rewrite negb_false_iff. apply le_true. Qed.

Lemma min2_le_max2 a b : Py.min2 a b <= Py.max2 a b.
Proof.
  unfold Py.min2, Py.max2.
  destruct (Py.lt b a) eqn:E1, (Py.lt a b) eqn:E2;
    rewrite ?lt_true, ?lt_false in *; auto using Qle_refl, Qlt_le_weak.
Qed.

(** ** Rectangle *)

Lemma rectangle_test (o : Rectangle.t) x y :
  Py.le (Rectangle.x1 o) x && Py.le x (Rectangle.x2 o)
  && (Py.le (Rectangle.y1 o) y && Py.le y (Rectangle.y2 o)) = true
  <-> inside_rectangle o x y.
Proof.
  unfold inside_rectangle. rewrite !andb_true_iff, !le_true. tauto.
Qed.

Lemma rectangle_attenuation_inside (o : Rectangle.t) x y :
  inside_rectangle o x y ->
  Rectangle.attenuation o x y = Rectangle.attenuation_factor o.
Proof.
  intros H. apply rectangle_test in H. unfold Rectangle.attenuation.
  now rewrite H.
Qed.

Lemma rectangle_attenuation_outside (o : Rectangle.t) x y :
  ~ inside_rectangle o x y -> Rectangle.attenuation o x y = 0.
Proof.
  intros H. unfold Rectangle.attenuation.
  destruct (_ && _) eqn:E; [|reflexivity].
  apply rectangle_test in E. contradiction.
Qed.

(** C7, as stated, at a rectangle of factor [0]: outside the bounds the
    density is [0], which is the factor, so the density equals the factor at
    a point that is not within the bounds. *)
Lemma rectangle_zero_factor_not_iff :
  let o := Rectangle.__init__ 0 1 0 1 0 in
  ~ (Rectangle.attenuation o 2 2 == Rectangle.attenuation_factor o
     <-> inside_rectangle o 2 2).
Proof.
  intros o [H _].
  assert (Hin : inside_rectangle o 2 2) by (apply H; reflexivity).
  destruct Hin as [[_ Hx] _]. vm_compute in Hx. apply Hx. reflexivity.
Qed.

(** C7 (amended): the bounds stored by the constructor are ordered; the
    density is the factor at every point within the closed bounds and [0] at
    every other point; when the factor is not [0], the density equals the
    factor exactly at the points within the closed bounds. *)
Theorem rectangle_attenuation_closed_bounds (x1 x2 y1 y2 f x y : Q) :
  let o := Rectangle.__init__ x1 x2 y1 y2 f in
  (Rectangle.x1 o <= Rectangle.x2 o /\ Rectangle.y1 o <= Rectangle.y2 o)
  /\ (inside_rectangle o x y -> Rectangle.attenuation o x y = f)
  /\ (~ inside_rectangle o x y -> Rectangle.attenuation o x y = 0)
  /\ (~ f == 0 ->
      (Rectangle.attenuation o x y == f <-> inside_rectangle o x y)).
Proof.
  intros o. split; [|split; [|split]].
  - split; apply min2_le_max2.
  - apply rectangle_attenuation_inside.
  - apply rectangle_attenuation_outside.
  - intros Hf. unfold Rectangle.attenuation.
    destruct (_ && _) eqn:T.
    + apply rectangle_test in T. simpl. split; auto with qarith.
    + split.
      * intros H. symmetry in H. contradiction.
      * intros H. apply rectangle_test in H. congruence.
Qed.

Lemma rectangle_attenuation_closed_bounds_witness :
  let o := Rectangle.__init__ (-1) 0 (-1) 0 1 in
  (Rectangle.x1 o <= Rectangle.x2 o /\ Rectangle.y1 o <= Rectangle.y2 o)
  /\ Rectangle.attenuation o (-1 # 2) (-1 # 2) = 1
  /\ Rectangle.attenuation o (1 # 2) (1 # 2) = 0.
Proof.
  intros o.
  destruct (rectangle_attenuation_closed_bounds (-1) 0 (-1) 0 1 (-1 # 2) (-1 # 2))
    as (Hb & Hin & _ & _).
  destruct (rectangle_attenuation_closed_bounds (-1) 0 (-1) 0 1 (1 # 2) (1 # 2))
    as (_ & _ & Hout & _).
  split; [exact Hb|]. split.
  - apply Hin. vm_compute. intuition discriminate.
  - apply Hout. vm_compute. intuition.
Defined.

(** ** Collections *)

Section Collection.

Variable lib : NumLib.

Lemma collection_loop_acc (objects : list AttenuationObject) x y acc :
  fold_left (fun a obj => a + attenuation lib obj x y) objects acc
  == acc + sum_attenuation lib objects x y.
Proof.
  revert acc. induction objects as [|m objects IH]; intros acc; simpl.
  - ring.
  - rewrite IH. ring.
Qed.

Lemma collection_attenuation_sum (objects : list AttenuationObject) x y :
  attenuation lib (AObjectCollection objects) x y
  == sum_attenuation lib objects x y.
Proof. simpl. rewrite collection_loop_acc. ring. Qed.

Lemma sum_attenuation_perm (l l' : list AttenuationObject) x y :
  Permutation l l' -> sum_attenuation lib l x y == sum_attenuation lib l' x y.
Proof.
  induction 1 as [|m l l' _ IH|m m' l|l l' l'' _ IH1 _ IH2]; simpl.
  - reflexivity.
  - now rewrite IH.
  - ring.
  - now rewrite IH1.
Qed.

Lemma sum_attenuation_nonneg (objects : list AttenuationObject) x y :
  Forall (fun m => 0 <= attenuation lib m x y) objects ->
  0 <= sum_attenuation lib objects x y.
Proof.
  induction 1 as [|m l Hm _ IH]; simpl.
  - apply Qle_refl.
  - change 0 with (0 + 0). now apply Qplus_le_compat.
Qed.

Lemma attenuation_nonneg (o : AttenuationObject) x y :
  factors_nonneg o -> 0 <= attenuation lib o x y.
Proof.
  induction o as [r|c|objects IH|f] using AttenuationObject_nested_ind;
    intros Hf.
  - simpl in *. unfold Rectangle.attenuation.
    destruct (_ && _); [exact Hf | apply Qle_refl].
  - simpl in *. unfold Circle.attenuation.
    destruct (Py.le _ _); [exact Hf | apply Qle_refl].
  - rewrite collection_attenuation_sum. apply sum_attenuation_nonneg.
    induction IH as [|m l Hm _ IHl]; constructor.
    + apply Hm, Hf.
    + apply IHl, Hf.
  - apply Hf.
Qed.

End Collection.

Lemma sum_attenuation_zero (lib : NumLib) (l : list AttenuationObject)
    (x y : Q) :
  Forall (fun o => attenuation lib o x y == 0) l ->
  sum_attenuation lib l x y == 0.
Proof.
  induction 1 as [|m l Hm _ IH]; simpl.
  - reflexivity.
  - rewrite Hm, IH. ring.
Qed.

(** C8, as stated, for three rectangles of factors [0.1], [0.2] and [0.3]
    that all contain the point [(0.5, 0.5)], in binary64: the collection
    holding them in this order and the collection holding them in the
    reverse order have different densities at the point
    ([0.6000000000000001] and [0.6]). *)
Lemma collection_attenuation_order_dependent :
  let unit_square f :=
    F64.ARectangle
      (F64.Rectangle.__init__ (F64.of_Z 0) (F64.of_Z 1)
         (F64.of_Z 0) (F64.of_Z 1) f) in
  let a := unit_square F64.tenth in
  let b := unit_square F64.fifth in
  let c := unit_square F64.three_tenths in
  PrimFloat.eqb
    (F64.attenuation (F64.AObjectCollection [a; b; c]) F64.half F64.half)
    (F64.attenuation (F64.AObjectCollection [c; b; a]) F64.half F64.half)
  = false
  /\ PrimFloat.ltb
       (F64.attenuation (F64.AObjectCollection [c; b; a]) F64.half F64.half)
       (F64.attenuation (F64.AObjectCollection [a; b; c]) F64.half F64.half)
     = true.
Proof. vm_compute. split; reflexivity. Qed.

(** C8 (amended): the density of a collection is what adding the densities
    of its members one after the other, in member order and starting from
    [0], gives.  It is the same for the two orders of a collection of two
    members, and for every order of the members at a point where all
    members but one have the density [0], where it is the density of that
    member. *)
Theorem collection_attenuation_member_order (lib : NumLib)
    (objects : list AttenuationObject) (a b : AttenuationObject) (x y : Q) :
  attenuation lib (AObjectCollection objects) x y
  = fold_left (fun acc m => acc + attenuation lib m x y) objects 0
  /\ attenuation lib (AObjectCollection [b; a]) x y
     == attenuation lib (AObjectCollection [a; b]) x y
  /\ (forall m others objects',
        Permutation objects (m :: others) ->
        Forall (fun o => attenuation lib o x y == 0) others ->
        Permutation objects objects' ->
        attenuation lib (AObjectCollection objects) x y
        == attenuation lib m x y
        /\ attenuation lib (AObjectCollection objects') x y
           == attenuation lib (AObjectCollection objects) x y).
Proof.
  split; [reflexivity|]. split.
  - rewrite !collection_attenuation_sum. simpl. ring.
  - intros m others objects' Hm Hz Hp.
    assert (E : sum_attenuation lib objects x y == attenuation lib m x y).
    { rewrite (sum_attenuation_perm lib _ _ x y Hm). simpl.
      rewrite (sum_attenuation_zero lib others x y Hz). ring. }
    split.
    + now rewrite collection_attenuation_sum.
    + rewrite !collection_attenuation_sum. symmetry.
      now apply sum_attenuation_perm.
Qed.

Lemma collection_attenuation_member_order_witness :
  let a := ARectangle (Rectangle.__init__ (-1) 0 (-1) 0 1) in
  let b := ARectangle (Rectangle.__init__ 0 1 0 1 (1 # 2)) in
  let c := ACircle (Circle.__init__ 5 5 1 3) in
  attenuation example_lib (AObjectCollection [a; b; c]) (-1 # 2) (-1 # 2)
  == attenuation example_lib a (-1 # 2) (-1 # 2)
  /\ attenuation example_lib (AObjectCollection [c; a; b]) (-1 # 2) (-1 # 2)
     == attenuation example_lib (AObjectCollection [a; b; c])
          (-1 # 2) (-1 # 2).
Proof.
  intros a b c.
  destruct (collection_attenuation_member_order example_lib [a; b; c] a b
              (-1 # 2) (-1 # 2)) as (_ & _ & H).
  apply (H a [b; c] [c; a; b]).
  - apply Permutation_refl.
  - repeat constructor.
  - apply Permutation_sym.
    apply (Permutation_cons_app [a; b] [] c). apply Permutation_refl.
Defined.

(** C4, as stated, at a rectangle built with a negative factor: the density
    within the bounds is the factor, which is below [0]. *)
Lemma rectangle_negative_density :
  ~ 0 <= attenuation example_lib
           (ARectangle (Rectangle.__init__ 0 1 0 1 (-1))) (1 # 2) (1 # 2).
Proof. vm_compute. intros H. apply H. reflexivity. Qed.

(** C4 (amended): for a rectangle, a circle or a collection whose factors,
    as given to the constructors, are all at least [0] (in a collection: the
    factors of all its members, and the density of a member of another
    class), the density at every point is at least [0]; the density of a
    rectangle or of a circle is its factor or [0], and no other value. *)
Theorem shipped_attenuation_nonneg (lib : NumLib) (o : AttenuationObject)
    (x y : Q) :
  factors_nonneg o ->
  0 <= attenuation lib o x y
  /\ (forall r, o = ARectangle r ->
        attenuation lib o x y = Rectangle.attenuation_factor r
        \/ attenuation lib o x y = 0)
  /\ (forall c, o = ACircle c ->
        attenuation lib o x y = Circle.attenuation_factor c
        \/ attenuation lib o x y = 0).
Proof.
  intros Hf. split; [now apply attenuation_nonneg|]. split.
  - intros r ->. simpl. unfold Rectangle.attenuation.
    destruct (_ && _); auto.
  - intros c ->. simpl. unfold Circle.attenuation.
    destruct (Py.le _ _); auto.
Qed.

Lemma shipped_attenuation_nonneg_witness :
  let o := AObjectCollection
             [ARectangle (Rectangle.__init__ (-1) 0 (-1) 0 1);
              ARectangle (Rectangle.__init__ 0 1 0 1 (1 # 2));
              ACircle (Circle.__init__ (8 # 10) (1 # 10) (5 # 100) 1)] in
  factors_nonneg o /\ 0 <= attenuation example_lib o (8 # 10) (1 # 10).
Proof.
  intros o.
  assert (Hf : factors_nonneg o) by (vm_compute; intuition discriminate).
  split; [exact Hf|].
  apply (shipped_attenuation_nonneg example_lib o (8 # 10) (1 # 10) Hf).
Defined.

(** ** The range of integration of [project_attenuation] *)

Lemma Qplus_comm_eq (a b : Q) : a + b = b + a.
Proof. unfold Qplus. f_equal; [ring | apply Pos.mul_comm]. Qed.

Lemma example_lib_oriented : quad_oriented example_lib.
Proof.
  intros f a b. simpl. rewrite (Qplus_comm_eq b a). ring.
Qed.

(** C3, as stated, at the rectangle [[-1, 1] x [-1, 1]] of factor [1],
    [theta = 0], [xi = 0] and the reversed range [(1, -1)]: the value is
    [-2], and with the ordered range [(-1, 1)] it is [2]. *)
Lemma reversed_eta_range_changes_value :
  let o := ARectangle (Rectangle.__init__ (-1) 1 (-1) 1 1) in
  project_attenuation example_lib o 0 0 (1, -1) == -2
  /\ project_attenuation example_lib o 0 0 (-1, 1) == 2
  /\ ~ project_attenuation example_lib o 0 0 (1, -1)
       == project_attenuation example_lib o 0 0 (-1, 1).
Proof. vm_compute. repeat split; discriminate. Qed.

(** C3 (amended): [project_attenuation] hands the two ends of [eta_range] to
    the quadrature in the order given, without ordering them; with an
    oriented quadrature, the value for a reversed range [(a, b)], [a > b],
    is the opposite of the value for the ordered range [(b, a)]. *)
Theorem project_attenuation_reversed_range (lib : NumLib)
    (o : AttenuationObject) (theta xi a b : Q) :
  quad_oriented lib ->
  b < a ->
  project_attenuation lib o theta xi (a, b)
  == - project_attenuation lib o theta xi (b, a).
Proof.
  intros Hq _. unfold project_attenuation. simpl. apply Hq.
Qed.

Lemma project_attenuation_reversed_range_witness :
  let o := ARectangle (Rectangle.__init__ (-1) 1 (-1) 1 1) in
  project_attenuation example_lib o 0 0 (1, -1)
  == - project_attenuation example_lib o 0 0 (-1, 1).
Proof.
  intros o.
  apply (project_attenuation_reversed_range example_lib o 0 0 1 (-1)).
  - apply example_lib_oriented.
  - reflexivity.
Defined.

(** ** Construction of a projection *)

Lemma min2_le_l a b : Py.min2 a b <= a.
Proof.
  unfold Py.min2. destruct (Py.lt b a) eqn:E.
  - apply lt_true in E. auto with qarith.
  - apply Qle_refl.
Qed.

Lemma max2_ge_l a b : a <= Py.max2 a b.
Proof.
  unfold Py.max2. destruct (Py.lt a b) eqn:E.
  - apply lt_true in E. auto with qarith.
  - apply Qle_refl.
Qed.

Lemma fold_min2_le_fold_max2 (l : list Q) (a b : Q) :
  a <= b -> fold_left Py.min2 l a <= fold_left Py.max2 l b.
Proof.
  revert a b. induction l as [|c l IH]; intros a b Hab; simpl; [exact Hab|].
  apply IH. eapply Qle_trans; [apply min2_le_l|].
  eapply Qle_trans; [exact Hab | apply max2_ge_l].
Qed.

Lemma min_le_max (l : list Q) (a b : Q) :
  Py.min l = Ok a -> Py.max l = Ok b -> a <= b.
Proof.
  destruct l as [|c l]; simpl; [discriminate|].
  intros [= <-] [= <-]. apply fold_min2_le_fold_max2, Qle_refl.
Qed.

Lemma div_Ok_inv (a b q : Q) :
  Py.div a b = Ok q -> ~ b == 0 /\ q = a / b.
Proof.
  unfold Py.div. destruct (Qeq_bool b 0) eqn:E; [discriminate|].
  intros [= <-]. split; [|reflexivity].
  intros H. apply Qeq_bool_iff in H. congruence.
Qed.

Lemma div_by_zero (a : Q) : Py.div a (inject_Z 0) = Raise ZeroDivisionError.
Proof. reflexivity. Qed.

Lemma div_nonzero (a b : Q) : ~ b == 0 -> Py.div a b = Ok (a / b).
Proof.
  intros H. unfold Py.div. destruct (Qeq_bool b 0) eqn:E; [|reflexivity].
  apply Qeq_bool_iff in E. contradiction.
Qed.

Lemma inject_Z_nonzero (n : Z) : n <> 0%Z -> ~ inject_Z n == 0.
Proof. intros Hn H. apply Hn. unfold Qeq in H. simpl in H. lia. Qed.

Lemma zeros_Ok_inv (n m : Z) (d : Np.ndarray2) :
  Np.zeros n m = Ok d ->
  (0 <= n)%Z /\ (0 <= m)%Z
  /\ d = replicate (Z.to_nat n) (replicate (Z.to_nat m) 0).
Proof.
  unfold Np.zeros. destruct (_ || _)%Z eqn:E; [discriminate|].
  intros [= <-]. apply orb_false_iff in E. destruct E as [E1 E2].
  apply Z.ltb_ge in E1, E2. auto.
Qed.

Lemma init_Ok_inv (tr : list Q) (ts : Z) (xr : list Q) (xs : Z)
    (p : Projection.t) :
  Projection.__init__ tr ts xr xs = Ok p ->
  exists tmin tmax xmin xmax,
    Py.min tr = Ok tmin /\ Py.max tr = Ok tmax
    /\ Py.min xr = Ok xmin /\ Py.max xr = Ok xmax
    /\ (0 < ts)%Z /\ (0 < xs)%Z
    /\ p = Projection.mk tmin tmax ts ((tmax - tmin) / inject_Z ts)
             xmin xmax xs ((xmax - xmin) / inject_Z xs)
             (replicate (Z.to_nat ts) (replicate (Z.to_nat xs) 0)).
Proof.
  unfold Projection.__init__. intros H.
  destruct (Py.min tr) as [tmin|] eqn:E1; [|discriminate].
  destruct (Py.max tr) as [tmax|] eqn:E2; [|discriminate].
  cbn in H.
  destruct (Py.div (tmax - tmin) (inject_Z ts)) as [tss|] eqn:E3;
    [|discriminate].
  destruct (Py.min xr) as [xmin|] eqn:E4; [|discriminate].
  destruct (Py.max xr) as [xmax|] eqn:E5; [|discriminate].
  cbn in H.
  destruct (Py.div (xmax - xmin) (inject_Z xs)) as [xss|] eqn:E6;
    [|discriminate].
  cbn in H.
  destruct (Np.zeros ts xs) as [d|] eqn:E7; [|discriminate].
  cbn in H. injection H as <-.
  apply div_Ok_inv in E3, E6. destruct E3 as [N3 ->], E6 as [N6 ->].
  apply zeros_Ok_inv in E7. destruct E7 as (P1 & P2 & ->).
  exists tmin, tmax, xmin, xmax. repeat split; try reflexivity.
  - destruct (Z.eq_dec ts 0%Z) as [->|]; [|lia]. exfalso. now apply N3.
  - destruct (Z.eq_dec xs 0%Z) as [->|]; [|lia]. exfalso. now apply N6.
Qed.

Lemma step_size_pos (a b : Q) (n : Z) :
  (0 < n)%Z -> (0 < (b - a) / inject_Z n <-> a < b).
Proof.
  intros Hn.
  assert (Hc : 0 < / inject_Z n).
  { apply Qinv_lt_0_compat. change 0 with (inject_Z 0). now rewrite <- Zlt_Qlt. }
  unfold Qdiv. split; intros H.
  - assert (H' : 0 * / inject_Z n < (b - a) * / inject_Z n)
      by (now rewrite Qmult_0_l).
    apply Qmult_lt_r in H'; [|exact Hc]. lra.
  - rewrite <- (Qmult_0_l (/ inject_Z n)).
    apply Qmult_lt_r; [exact Hc|]. lra.
Qed.

Lemma step_size_nonneg (a b : Q) (n : Z) :
  (0 < n)%Z -> a <= b -> 0 <= (b - a) / inject_Z n.
Proof.
  intros Hn Hab. destruct (Qlt_le_dec a b) as [Hlt|Hge].
  - apply Qlt_le_weak. now apply step_size_pos.
  - assert (E : b - a == 0) by lra. rewrite E. unfold Qdiv.
    rewrite Qmult_0_l. apply Qle_refl.
Qed.

Lemma bind_Ok {A B} (a : A) (k : A -> result B) : (Ok a ≫= k) = k a.
Proof. reflexivity. Qed.

Lemma min_nonempty (l : list Q) : l <> [] -> exists a, Py.min l = Ok a.
Proof. destruct l; [congruence | simpl; eauto]. Qed.

Lemma max_nonempty (l : list Q) : l <> [] -> exists a, Py.max l = Ok a.
Proof. destruct l; [congruence | simpl; eauto]. Qed.

Lemma min_Ok_nonempty (l : list Q) (a : Q) : Py.min l = Ok a -> l <> [].
Proof. destruct l; [discriminate | congruence]. Qed.

Lemma zeros_nonneg (n m : Z) :
  (0 <= n)%Z -> (0 <= m)%Z ->
  Np.zeros n m = Ok (replicate (Z.to_nat n) (replicate (Z.to_nat m) 0)).
Proof.
  intros Hn Hm. unfold Np.zeros.
  replace ((n <? 0) || (m <? 0))%Z with false; [reflexivity|].
  symmetry. apply orb_false_iff. split; apply Z.ltb_ge; lia.
Qed.

(** C2, as stated, at the degenerate range [[1, 1]] with five steps: the
    construction succeeds, and the step size of the grid is [0]. *)
Lemma init_accepts_degenerate_range :
  exists p : Projection.t,
    Projection.__init__ [1; 1] 5 [-2; 2] 5 = Ok p
    /\ Projection.theta_step_size p == 0
    /\ ~ 0 < Projection.theta_step_size p.
Proof.
  eexists. split; [reflexivity|]. split; [reflexivity|].
  vm_compute. discriminate.
Qed.

(** With bounds that are numpy scalars the quotient by a zero step count is
    an infinity, not an exception, and the construction returns a grid
    without rows; with bounds that are numbers of Python it raises. *)
Lemma init_numpy_bounds_zero_steps :
  (exists p,
     F64.Projection.__init__ F64.Numpy [F64.of_Z 0; F64.of_Z 3] 0
       [F64.of_Z (-2); F64.of_Z 2] 5 = Ok p
     /\ F64.Projection.theta_step_size p = PrimFloat.infinity
     /\ F64.Projection.data p = [])
  /\ F64.Projection.__init__ F64.Builtin [F64.of_Z 0; F64.of_Z 3] 0
       [F64.of_Z (-2); F64.of_Z 2] 5 = Raise ZeroDivisionError.
Proof.
  split; [eexists; split; [vm_compute; reflexivity|]|];
    vm_compute; auto.
Qed.

(** C2 (amended): with non-empty ranges whose bounds are numbers of
    Python, a construction with a zero [theta_steps] or [xi_steps] raises
    [ZeroDivisionError]; with both step counts non-zero and one of them
    negative it raises [ValueError]; with both positive it returns, also
    when the two bounds of a range are equal, and then the step size of
    that range is [0].  The step sizes of a grid that was returned are at
    least [0], and positive exactly when the bounds of the range differ;
    its step counts are positive. *)
Theorem init_step_validation (theta_range : list Q) (theta_steps : Z)
    (xi_range : list Q) (xi_steps : Z) :
  theta_range <> [] -> xi_range <> [] ->
  ((theta_steps = 0 \/ xi_steps = 0)%Z ->
   Projection.__init__ theta_range theta_steps xi_range xi_steps
   = Raise ZeroDivisionError)
  /\ ((theta_steps <> 0)%Z -> (xi_steps <> 0)%Z ->
      (theta_steps < 0 \/ xi_steps < 0)%Z ->
      Projection.__init__ theta_range theta_steps xi_range xi_steps
      = Raise ValueError)
  /\ ((0 < theta_steps)%Z -> (0 < xi_steps)%Z ->
      exists p,
        Projection.__init__ theta_range theta_steps xi_range xi_steps = Ok p)
  /\ (forall p,
        Projection.__init__ theta_range theta_steps xi_range xi_steps = Ok p ->
        (0 < Projection.theta_steps p)%Z /\ (0 < Projection.xi_steps p)%Z
        /\ 0 <= Projection.theta_step_size p
        /\ 0 <= Projection.xi_step_size p
        /\ (Projection.theta_step_size p == 0
            <-> Projection.theta_min p == Projection.theta_max p)
        /\ (Projection.xi_step_size p == 0
            <-> Projection.xi_min p == Projection.xi_max p)
        /\ (0 < Projection.theta_step_size p
            <-> Projection.theta_min p < Projection.theta_max p)
        /\ (0 < Projection.xi_step_size p
            <-> Projection.xi_min p < Projection.xi_max p)).
Proof.
  intros Ht Hx.
  destruct (min_nonempty _ Ht) as [tmin E1].
  destruct (max_nonempty _ Ht) as [tmax E2].
  destruct (min_nonempty _ Hx) as [xmin E3].
  destruct (max_nonempty _ Hx) as [xmax E4].
  assert (Hrun : forall ts xs,
            Projection.__init__ theta_range ts xi_range xs
            = (theta_step_size ← Py.div (tmax - tmin) (inject_Z ts);
               xi_step_size ← Py.div (xmax - xmin) (inject_Z xs);
               data ← Np.zeros ts xs;
               Ok (Projection.mk tmin tmax ts theta_step_size
                     xmin xmax xs xi_step_size data))).
  { intros ts xs. unfold Projection.__init__.
    rewrite E1, bind_Ok, E2, bind_Ok.
    destruct (Py.div (tmax - tmin) (inject_Z ts)); [|reflexivity].
    now rewrite !bind_Ok, E3, bind_Ok, E4, bind_Ok. }
  split; [|split; [|split]].
  - intros [->| ->]; rewrite Hrun.
    + reflexivity.
    + destruct (Z.eq_dec theta_steps 0%Z) as [->|Hn]; [reflexivity|].
      rewrite (div_nonzero (tmax - tmin) (inject_Z theta_steps))
        by now apply inject_Z_nonzero.
      now rewrite bind_Ok.
  - intros Hts Hxs Hneg. rewrite Hrun.
    rewrite (div_nonzero (tmax - tmin) (inject_Z theta_steps)), bind_Ok
      by now apply inject_Z_nonzero.
    rewrite div_nonzero, bind_Ok by now apply inject_Z_nonzero.
    unfold Np.zeros.
    replace ((theta_steps <? 0) || (xi_steps <? 0))%Z with true;
      [reflexivity|].
    symmetry. apply orb_true_iff. destruct Hneg; [left | right];
      now apply Z.ltb_lt.
  - intros Hts Hxs. rewrite Hrun.
    rewrite (div_nonzero (tmax - tmin) (inject_Z theta_steps)), bind_Ok
      by (apply inject_Z_nonzero; lia).
    rewrite div_nonzero, bind_Ok by (apply inject_Z_nonzero; lia).
    rewrite zeros_nonneg, bind_Ok by lia. eauto.
  - intros p E. apply init_Ok_inv in E.
    destruct E as (tmin' & tmax' & xmin' & xmax' & T1 & T2 & X1 & X2
                   & Hts & Hxs & ->).
    simpl. pose proof (min_le_max _ _ _ T1 T2) as Hto.
    pose proof (min_le_max _ _ _ X1 X2) as Hxo.
    pose proof (step_size_nonneg _ _ _ Hts Hto) as Nt.
    pose proof (step_size_nonneg _ _ _ Hxs Hxo) as Nx.
    pose proof (step_size_pos tmin' tmax' _ Hts) as Pt.
    pose proof (step_size_pos xmin' xmax' _ Hxs) as Px.
    repeat (split; [assumption|]).
    split; [|split; [|split; assumption]].
    + split; intros H; [|assert (~ tmin' < tmax') by lra]; lra.
    + split; intros H; [|assert (~ xmin' < xmax') by lra]; lra.
Qed.

Lemma init_step_validation_witness :
  Projection.__init__ [0; 3] 0 [-2; 2] 4 = Raise ZeroDivisionError
  /\ Projection.__init__ [0; 3] 2 [-2; 2] (-4) = Raise ValueError
  /\ (exists p, Projection.__init__ [1; 1] 2 [-2; 2] 4 = Ok p
                /\ Projection.theta_step_size p == 0
                /\ 0 < Projection.xi_step_size p).
Proof.
  assert (N1 : [0; 3] <> ([] : list Q)) by discriminate.
  assert (N2 : [-2; 2] <> ([] : list Q)) by discriminate.
  assert (N3 : [1; 1] <> ([] : list Q)) by discriminate.
  destruct (init_step_validation [0; 3] 0 [-2; 2] 4 N1 N2) as (Hzero & _).
  destruct (init_step_validation [0; 3] 2 [-2; 2] (-4) N1 N2)
    as (_ & Hneg & _).
  destruct (init_step_validation [1; 1] 2 [-2; 2] 4 N3 N2)
    as (_ & _ & Hok & Hsize).
  split; [apply Hzero; left; reflexivity|].
  split; [apply Hneg; lia|].
  destruct Hok as [p E]; [lia | lia |]. exists p. split; [exact E|].
  destruct (Hsize p E) as (_ & _ & _ & _ & Ht & _ & _ & Hx).
  injection E as <-.
  split; [apply Ht | apply Hx]; reflexivity.
Defined.

(** ** Back-projection *)

Lemma range_pos (n : Z) :
  (0 < n)%Z -> exists l, Py.range n = 0%Z :: l.
Proof.
  intros Hn. unfold Py.range.
  destruct (Z.to_nat n) as [|k] eqn:E; [lia|].
  simpl. eauto.
Qed.

Lemma range_nonpos (n : Z) : (n <= 0)%Z -> Py.range n = [].
Proof.
  intros Hn. unfold Py.range. now replace (Z.to_nat n) with 0%nat by lia.
Qed.

(** C1: [back_project] returns no array.  On a grid with a positive
    [xi_steps] the first evaluation of the loop body raises [NameError], and
    because the body ends without a [return], no call on any grid yields an
    array. *)
Theorem back_project_returns_no_array (self : Projection.t) :
  (forall matrix, Projection.back_project self <> Ok (Some matrix))
  /\ ((0 < Projection.xi_steps self)%Z ->
      Projection.back_project self = Raise NameError).
Proof.
  unfold Projection.back_project. split.
  - intros matrix.
    destruct (Np.zeros _ _) as [m|e]; cbn; [|discriminate].
    destruct (Py.for_each _ _ m); cbn; discriminate.
  - intros Hn. unfold Np.zeros.
    replace (Projection.xi_steps self <? 0)%Z with false by (symmetry; lia).
    cbn. destruct (range_pos _ Hn) as [l ->]. reflexivity.
Qed.

Lemma back_project_returns_no_array_witness :
  Projection.back_project
    (Projection.mk 0 3 2 (3 # 2) (-2) 2 2 2 [[1; 2]; [3; 4]])
  = Raise NameError.
Proof.
  apply (back_project_returns_no_array _). reflexivity.
Defined.

(** ** Shapes and cells *)

Lemma example_grid_init :
  Projection.__init__ [0; 3] 2 [-2; 2] 2 = Ok example_grid.
Proof. reflexivity. Qed.

Lemma shaped_replicate (rows cols : nat) (c : Q) :
  shaped rows cols (replicate rows (replicate cols c)).
Proof.
  split; [apply length_replicate|].
  apply Forall_replicate, length_replicate.
Qed.

Lemma init_wf tr ts xr xs p :
  Projection.__init__ tr ts xr xs = Ok p -> wf p.
Proof.
  intros E. apply init_Ok_inv in E.
  destruct E as (tmin & tmax & xmin & xmax & T1 & T2 & X1 & X2 & Ht & Hx & ->).
  constructor; simpl; try assumption; try reflexivity.
  - eapply min_le_max; eassumption.
  - eapply min_le_max; eassumption.
  - apply shaped_replicate.
Qed.

Lemma example_grid_wf : wf example_grid.
Proof. exact (init_wf _ _ _ _ _ example_grid_init). Qed.

Lemma shaped_cell rows cols d i j :
  shaped rows cols d -> (i < rows)%nat -> (j < cols)%nat ->
  exists row v, d !! i = Some row /\ length row = cols
                /\ row !! j = Some v /\ cell d i j = Some v.
Proof.
  intros [Hr Hc] Hi Hj.
  destruct (lookup_lt_is_Some_2 d i) as [row Hrow]; [lia|].
  assert (Hlen : length row = cols).
  { eapply (proj1 (Forall_lookup _ d)) in Hc; eauto. }
  destruct (lookup_lt_is_Some_2 row j) as [v Hv]; [lia|].
  exists row, v. unfold cell. rewrite Hrow. auto.
Qed.

(** ** Indexing *)

Lemma axis_index_nonneg (n k : nat) :
  (k < n)%nat -> Np.axis_index n (Z.of_nat k) = Ok k.
Proof.
  intros Hk. unfold Np.axis_index.
  replace ((0 <=? Z.of_nat k) && (Z.of_nat k <? Z.of_nat n))%Z with true
    by (symmetry; apply andb_true_iff; split; lia).
  now rewrite Nat2Z.id.
Qed.

Lemma axis_index_wrap (n : nat) (i : Z) :
  (- Z.of_nat n <= i < 0)%Z ->
  Np.axis_index n i = Np.axis_index n (Z.of_nat n + i).
Proof.
  intros Hi. unfold Np.axis_index.
  replace ((0 <=? i) && (i <? Z.of_nat n))%Z with false
    by (symmetry; apply andb_false_iff; left; lia).
  replace ((- Z.of_nat n <=? i) && (i <? 0))%Z with true
    by (symmetry; apply andb_true_iff; split; lia).
  replace ((0 <=? Z.of_nat n + i) && (Z.of_nat n + i <? Z.of_nat n))%Z
    with true by (symmetry; apply andb_true_iff; split; lia).
  reflexivity.
Qed.

Lemma getitem1_nonneg {A} (l : list A) (k : nat) (a : A) :
  l !! k = Some a -> Np.getitem1 l (Z.of_nat k) = Ok a.
Proof.
  intros H. unfold Np.getitem1.
  rewrite axis_index_nonneg by (eapply lookup_lt_Some; eauto).
  cbn. now rewrite H.
Qed.

Lemma getitem1_wrap {A} (l : list A) (i : Z) :
  (- Z.of_nat (length l) <= i < 0)%Z ->
  Np.getitem1 l i = Np.getitem1 l (Z.of_nat (length l) + i).
Proof.
  intros Hi. unfold Np.getitem1. now rewrite axis_index_wrap.
Qed.

Lemma getitem_cell (d : Np.ndarray2) (i j : nat) (v : Q) :
  cell d i j = Some v -> Np.getitem d (Z.of_nat i) (Z.of_nat j) = Ok v.
Proof.
  unfold cell, Np.getitem. destruct (d !! i) as [row|] eqn:E; [|discriminate].
  intros H. rewrite (getitem1_nonneg _ _ _ E).
  change (Np.getitem1 row (Z.of_nat j) = Ok v).
  now apply getitem1_nonneg.
Qed.

Lemma getitem_last (d : Np.ndarray2) (i : nat) (row : list Q) (v : Q) :
  d !! i = Some row -> row !! (length row - 1)%nat = Some v ->
  Np.getitem d (Z.of_nat i) (-1) = Ok v.
Proof.
  intros E H. unfold Np.getitem. rewrite (getitem1_nonneg _ _ _ E).
  change (Np.getitem1 row (-1) = Ok v).
  assert (Hlen : (length row - 1 < length row)%nat)
    by (eapply lookup_lt_Some; eauto).
  rewrite getitem1_wrap by lia.
  replace (Z.of_nat (length row) + -1)%Z with (Z.of_nat (length row - 1))
    by lia.
  now apply getitem1_nonneg.
Qed.

Lemma getitem_wrap_row (d : Np.ndarray2) (i j : Z) :
  (- Z.of_nat (length d) <= i < 0)%Z ->
  Np.getitem d i j = Np.getitem d (Z.of_nat (length d) + i) j.
Proof.
  intros Hi. unfold Np.getitem. now rewrite getitem1_wrap.
Qed.

(** ** Continuous read-back *)

Lemma int_floor (q : Q) : 0 <= q -> Py.int q = Qfloor q.
Proof.
  destruct q as [n d]. unfold Qle, Py.int, Qfloor. simpl. intros H.
  apply Z.quot_div_nonneg; lia.
Qed.

Lemma quotient_neg (a s : Q) : 0 < s -> (a / s < 0 <-> a < 0).
Proof.
  intros Hs. assert (Hi : 0 < / s) by now apply Qinv_lt_0_compat.
  unfold Qdiv. rewrite <- (Qmult_0_l (/ s)) at 1.
  apply Qmult_lt_r. exact Hi.
Qed.

Lemma quotient_ge_steps (xi lo hi : Q) (n : Z) :
  (0 < n)%Z -> lo < hi ->
  (inject_Z n <= (xi - lo) / ((hi - lo) / inject_Z n) <-> hi <= xi).
Proof.
  intros Hn Hr.
  assert (Hz : 0 < inject_Z n)
    by (change 0 with (inject_Z 0); now rewrite <- Zlt_Qlt).
  assert (Hs : 0 < (hi - lo) / inject_Z n) by now apply step_size_pos.
  rewrite <- (Qmult_le_r _ _ _ Hs).
  assert (E1 : inject_Z n * ((hi - lo) / inject_Z n) == hi - lo)
    by (field; lra).
  assert (E2 : (xi - lo) / ((hi - lo) / inject_Z n) * ((hi - lo) / inject_Z n)
               == xi - lo) by (field; split; lra).
  rewrite E1, E2. split; intros; lra.
Qed.

Section ReadBack.

Variable p : Projection.t.
Variable d : Np.ndarray2.
Hypothesis p_wf : wf p.
Hypothesis xi_range_proper : Projection.xi_min p < Projection.xi_max p.
Hypothesis d_shaped :
  shaped (Z.to_nat (Projection.theta_steps p))
    (Z.to_nat (Projection.xi_steps p)) d.

Let cols : nat := Z.to_nat (Projection.xi_steps p).

Lemma xi_step_size_pos : 0 < Projection.xi_step_size p.
Proof.
  rewrite (wf_xi_step_size p p_wf).
  apply step_size_pos; [apply (wf_xi_steps p p_wf) | exact xi_range_proper].
Qed.

Lemma xi_index_div (xi : Q) :
  Py.div (xi - Projection.xi_min p) (Projection.xi_step_size p)
  = Ok (xi_index p xi).
Proof.
  apply div_nonzero. pose proof xi_step_size_pos. lra.
Qed.

Lemma xi_index_neg (xi : Q) :
  xi_index p xi < 0 <-> xi < Projection.xi_min p.
Proof.
  unfold xi_index. rewrite (quotient_neg _ _ xi_step_size_pos).
  split; intros; lra.
Qed.

Lemma xi_index_ge_steps (xi : Q) :
  inject_Z (Projection.xi_steps p) <= xi_index p xi
  <-> Projection.xi_max p <= xi.
Proof.
  unfold xi_index. rewrite (wf_xi_step_size p p_wf).
  apply quotient_ge_steps; [apply (wf_xi_steps p p_wf) | exact xi_range_proper].
Qed.

Lemma read_below (i : nat) (xi : Q) :
  (i < Z.to_nat (Projection.theta_steps p))%nat ->
  xi < Projection.xi_min p ->
  exists v, cell d i 0 = Some v
            /\ Projection.get_continuous_custom p (Z.of_nat i) xi d = Ok v.
Proof.
  intros Hi Hxi.
  destruct (shaped_cell _ _ d i 0%nat d_shaped Hi) as (row & v & _ & _ & _ & Hv).
  { pose proof (wf_xi_steps p p_wf). lia. }
  exists v. split; [exact Hv|].
  unfold Projection.get_continuous_custom. rewrite xi_index_div.
  change (Ok (xi_index p xi) ≫= ?k) with (k (xi_index p xi)). cbv beta.
  replace (Py.lt (xi_index p xi) 0) with true
    by (symmetry; apply lt_true, xi_index_neg, Hxi).
  now apply (getitem_cell d i 0%nat).
Qed.

Lemma read_above (i : nat) (xi : Q) :
  (i < Z.to_nat (Projection.theta_steps p))%nat ->
  Projection.xi_max p <= xi ->
  exists v, cell d i (cols - 1) = Some v
            /\ Projection.get_continuous_custom p (Z.of_nat i) xi d = Ok v.
Proof.
  intros Hi Hxi.
  assert (Hc : (cols - 1 < cols)%nat).
  { subst cols. pose proof (wf_xi_steps p p_wf). lia. }
  destruct (shaped_cell _ _ d i _ d_shaped Hi Hc)
    as (row & v & Hrow & Hlen & Hrv & Hv).
  exists v. split; [exact Hv|].
  unfold Projection.get_continuous_custom. rewrite xi_index_div.
  change (Ok (xi_index p xi) ≫= ?k) with (k (xi_index p xi)). cbv beta.
  replace (Py.lt (xi_index p xi) 0) with false.
  2:{ symmetry. apply lt_false.
      assert (~ xi_index p xi < 0); [|lra].
      rewrite xi_index_neg. lra. }
  replace (Py.le (inject_Z (Projection.xi_steps p)) (xi_index p xi)) with true
    by (symmetry; apply le_true, xi_index_ge_steps, Hxi).
  apply (getitem_last d i row v Hrow). now rewrite Hlen.
Qed.

Lemma read_inside (i : nat) (xi : Q) :
  (i < Z.to_nat (Projection.theta_steps p))%nat ->
  Projection.xi_min p <= xi -> xi < Projection.xi_max p ->
  (Z.to_nat (Qfloor (xi_index p xi)) < cols)%nat
  /\ exists v, cell d i (Z.to_nat (Qfloor (xi_index p xi))) = Some v
               /\ Projection.get_continuous_custom p (Z.of_nat i) xi d = Ok v.
Proof.
  intros Hi Hlo Hhi.
  assert (H0 : 0 <= xi_index p xi).
  { assert (~ xi_index p xi < 0); [|lra]. rewrite xi_index_neg. lra. }
  assert (H1 : xi_index p xi < inject_Z (Projection.xi_steps p)).
  { assert (~ inject_Z (Projection.xi_steps p) <= xi_index p xi); [|lra].
    rewrite xi_index_ge_steps. lra. }
  assert (F0 : (0 <= Qfloor (xi_index p xi))%Z).
  { rewrite <- (Qfloor_Z 0). now apply Qfloor_resp_le. }
  assert (F1 : (Qfloor (xi_index p xi) < Projection.xi_steps p)%Z).
  { rewrite Zlt_Qlt. eapply Qle_lt_trans; [apply Qfloor_le | exact H1]. }
  assert (Hc : (Z.to_nat (Qfloor (xi_index p xi)) < cols)%nat)
    by (subst cols; lia).
  split; [exact Hc|].
  destruct (shaped_cell _ _ d i _ d_shaped Hi Hc) as (row & v & _ & _ & _ & Hv).
  exists v. split; [exact Hv|].
  unfold Projection.get_continuous_custom. rewrite xi_index_div.
  change (Ok (xi_index p xi) ≫= ?k) with (k (xi_index p xi)). cbv beta.
  replace (Py.lt (xi_index p xi) 0) with false
    by (symmetry; apply lt_false, H0).
  replace (Py.le (inject_Z (Projection.xi_steps p)) (xi_index p xi)) with false
    by (symmetry; apply le_false, H1).
  rewrite (int_floor _ H0).
  rewrite <- (Z2Nat.id (Qfloor (xi_index p xi))) at 1 by exact F0.
  now apply getitem_cell.
Qed.

Lemma read_total (i : nat) (xi : Q) :
  (i < Z.to_nat (Projection.theta_steps p))%nat ->
  exists v, Projection.get_continuous_custom p (Z.of_nat i) xi d = Ok v.
Proof.
  intros Hi.
  destruct (Qlt_le_dec xi (Projection.xi_min p)) as [H1|H1].
  { destruct (read_below i xi Hi H1) as (v & _ & Hv). eauto. }
  destruct (Qlt_le_dec xi (Projection.xi_max p)) as [H2|H2].
  - destruct (read_inside i xi Hi H1 H2) as (_ & v & _ & Hv). eauto.
  - destruct (read_above i xi Hi H2) as (v & _ & Hv). eauto.
Qed.

Lemma read_wrap (theta_idx : Z) (xi : Q) :
  (- Projection.theta_steps p <= theta_idx < 0)%Z ->
  Projection.get_continuous_custom p theta_idx xi d
  = Projection.get_continuous_custom p
      (Projection.theta_steps p + theta_idx) xi d.
Proof.
  intros Hi. destruct d_shaped as [Hrows _].
  pose proof (wf_theta_steps p p_wf).
  assert (E : Projection.theta_steps p = Z.of_nat (length d)) by lia.
  unfold Projection.get_continuous_custom.
  destruct (Py.div _ _) as [q|e]; [|reflexivity].
  change (Ok q ≫= ?k) with (k q). cbv beta.
  rewrite E in *.
  destruct (Py.lt q 0); [|destruct (Py.le _ q)];
    now apply getitem_wrap_row.
Qed.

End ReadBack.

Lemma read_column (p : Projection.t) (d : Np.ndarray2) (i : nat) (xi : Q) :
  wf p ->
  Projection.xi_min p < Projection.xi_max p ->
  shaped (Z.to_nat (Projection.theta_steps p))
    (Z.to_nat (Projection.xi_steps p)) d ->
  (i < Z.to_nat (Projection.theta_steps p))%nat ->
  exists j v,
    (j < Z.to_nat (Projection.xi_steps p))%nat
    /\ cell d i j = Some v
    /\ Projection.get_continuous_custom p (Z.of_nat i) xi d = Ok v
    /\ (xi < Projection.xi_min p -> j = 0%nat)
    /\ (Projection.xi_max p <= xi ->
        j = (Z.to_nat (Projection.xi_steps p) - 1)%nat)
    /\ (Projection.xi_min p <= xi -> xi < Projection.xi_max p ->
        Z.of_nat j = Qfloor (xi_index p xi)).
Proof.
  intros Hwf Hr Hd Hi. pose proof (wf_xi_steps p Hwf) as Hx.
  destruct (Qlt_le_dec xi (Projection.xi_min p)) as [H1|H1].
  { destruct (read_below p d Hwf Hr Hd i xi Hi H1) as (v & Hc & Hv).
    exists 0%nat, v. repeat split; try assumption; try lia; intros; lra. }
  destruct (Qlt_le_dec xi (Projection.xi_max p)) as [H2|H2].
  - destruct (read_inside p d Hwf Hr Hd i xi Hi H1 H2) as (Hj & v & Hc & Hv).
    exists (Z.to_nat (Qfloor (xi_index p xi))), v.
    repeat split; try assumption; try (intros; lra).
    intros _ _. apply Z2Nat.id.
    rewrite <- (Qfloor_Z 0). apply Qfloor_resp_le.
    change (inject_Z 0) with 0.
    assert (~ xi_index p xi < 0); [|lra].
    rewrite (xi_index_neg p Hwf Hr). lra.
  - destruct (read_above p d Hwf Hr Hd i xi Hi H2) as (v & Hc & Hv).
    exists (Z.to_nat (Projection.xi_steps p) - 1)%nat, v.
    repeat split; try assumption; try lia; intros; lra.
Qed.




(** C10: [get_continuous_custom] does not check the row index.  On a grid
    with a positive [xi_step_size] and an array of the grid's shape it
    returns, for every [theta_idx] in [0 .. theta_steps - 1] and every [xi],
    an entry of the row [theta_idx]; for [theta_idx] in
    [-theta_steps .. -1] it returns, without raising, an entry of the row
    [theta_steps + theta_idx], the one it returns for that row index; the
    column is the first one when [xi < xi_min] and the last one when
    [xi >= xi_max]. *)
Theorem get_continuous_custom_row_index (p : Projection.t)
    (d : Np.ndarray2) (theta_idx : Z) (xi : Q) :
  wf p ->
  0 < Projection.xi_step_size p ->
  shaped (Z.to_nat (Projection.theta_steps p))
    (Z.to_nat (Projection.xi_steps p)) d ->
  ((0 <= theta_idx < Projection.theta_steps p)%Z ->
   exists j v,
     (j < Z.to_nat (Projection.xi_steps p))%nat
     /\ cell d (Z.to_nat theta_idx) j = Some v
     /\ Projection.get_continuous_custom p theta_idx xi d = Ok v
     /\ (xi < Projection.xi_min p -> j = 0%nat)
     /\ (Projection.xi_max p <= xi ->
         j = (Z.to_nat (Projection.xi_steps p) - 1)%nat))
  /\ ((- Projection.theta_steps p <= theta_idx < 0)%Z ->
      exists j v,
        (j < Z.to_nat (Projection.xi_steps p))%nat
        /\ cell d (Z.to_nat (Projection.theta_steps p + theta_idx)) j = Some v
        /\ Projection.get_continuous_custom p theta_idx xi d = Ok v
        /\ Projection.get_continuous_custom p
             (Projection.theta_steps p + theta_idx) xi d = Ok v
        /\ (xi < Projection.xi_min p -> j = 0%nat)
        /\ (Projection.xi_max p <= xi ->
            j = (Z.to_nat (Projection.xi_steps p) - 1)%nat)).
Proof.
  intros Hwf Hs Hd.
  assert (Hr : Projection.xi_min p < Projection.xi_max p).
  { rewrite (wf_xi_step_size p Hwf) in Hs.
    apply step_size_pos in Hs; [exact Hs | apply (wf_xi_steps p Hwf)]. }
  split; intros Hi.
  - destruct (read_column p d (Z.to_nat theta_idx) xi Hwf Hr Hd)
      as (j & v & Hj & Hc & Hv & H0 & H1 & _); [lia|].
    rewrite Z2Nat.id in Hv by lia. exists j, v. auto.
  - destruct (read_column p d
                (Z.to_nat (Projection.theta_steps p + theta_idx)) xi
                Hwf Hr Hd)
      as (j & v & Hj & Hc & Hv & H0 & H1 & _); [lia|].
    rewrite Z2Nat.id in Hv by lia. exists j, v.
    rewrite (read_wrap p d Hwf Hd theta_idx xi Hi). auto 10.
Qed.

Lemma get_continuous_custom_row_index_witness :
  let d := [[1; 2]; [3; 4]] in
  Projection.get_continuous_custom example_grid 1 (-3) d = Ok 3
  /\ Projection.get_continuous_custom example_grid (-1) (-3) d = Ok 3
  /\ Projection.get_continuous_custom example_grid (-2) 5 d = Ok 2.
Proof.
  intros d.
  assert (Hs : 0 < Projection.xi_step_size example_grid) by reflexivity.
  assert (Hd : shaped (Z.to_nat (Projection.theta_steps example_grid))
                 (Z.to_nat (Projection.xi_steps example_grid)) d)
    by (split; [reflexivity | repeat constructor]).
  destruct (get_continuous_custom_row_index example_grid d 1 (-3)
              example_grid_wf Hs Hd) as [Hin _].
  destruct (get_continuous_custom_row_index example_grid d (-1) (-3)
              example_grid_wf Hs Hd) as [_ Hneg].
  destruct (get_continuous_custom_row_index example_grid d (-2) 5
              example_grid_wf Hs Hd) as [_ Hneg'].
  split; [|split].
  - destruct Hin as (j & v & _ & Hc & Hv & H0 & _); [vm_compute; split; congruence|].
    rewrite H0 in Hc by reflexivity. injection Hc as <-. exact Hv.
  - destruct Hneg as (j & v & _ & Hc & Hv & _ & H0 & _);
      [vm_compute; split; congruence|].
    rewrite H0 in Hc by reflexivity. injection Hc as <-. exact Hv.
  - destruct Hneg' as (j & v & _ & Hc & Hv & _ & _ & H1);
      [vm_compute; split; congruence|].
    rewrite H1 in Hc by discriminate. injection Hc as <-. exact Hv.
Defined.

(** ** Forward projection: [add_object] *)

Lemma set_data_data (s : Projection.t) :
  Projection.set_data s (Projection.data s) = s.
Proof. now destruct s. Qed.

Lemma iadd_cell (d : Np.ndarray2) (i j : nat) (row : list Q) (old v : Q) :
  d !! i = Some row -> row !! j = Some old ->
  Np.iadd d (Z.of_nat i) (Z.of_nat j) v
  = Ok (<[i := <[j := old + v]> row]> d).
Proof.
  intros Hrow Hold. unfold Np.iadd.
  rewrite (getitem1_nonneg _ _ _ Hrow), bind_Ok.
  rewrite (getitem1_nonneg _ _ _ Hold), bind_Ok.
  rewrite !axis_index_nonneg by (eapply lookup_lt_Some; eauto).
  now rewrite !bind_Ok.
Qed.

Lemma cell_update (d : Np.ndarray2) (i j : nat) (row : list Q) (old c : Q)
    (a b : nat) :
  d !! i = Some row -> row !! j = Some old ->
  cell (<[i := <[j := c]> row]> d) a b
  = if decide (a = i /\ b = j) then Some c else cell d a b.
Proof.
  intros Hrow Hold. unfold cell.
  apply lookup_lt_Some in Hrow as Hi. apply lookup_lt_Some in Hold as Hj.
  destruct (decide (a = i)) as [->|Hne].
  - rewrite list_lookup_insert_eq by exact Hi. rewrite Hrow.
    destruct (decide (b = j)) as [->|Hnb].
    + rewrite list_lookup_insert_eq by exact Hj.
      now rewrite decide_True by auto.
    + rewrite list_lookup_insert_ne by auto.
      now rewrite decide_False by tauto.
  - rewrite list_lookup_insert_ne by auto.
    now rewrite decide_False by tauto.
Qed.

Lemma shaped_update (rows cols : nat) (d : Np.ndarray2) (i j : nat)
    (row : list Q) (c : Q) :
  shaped rows cols d -> d !! i = Some row ->
  shaped rows cols (<[i := <[j := c]> row]> d).
Proof.
  intros [Hr Hc] Hrow. split.
  - now rewrite length_insert.
  - apply Forall_insert; [exact Hc|]. rewrite length_insert.
    eapply (proj1 (Forall_lookup _ d)) in Hc; eauto.
Qed.

Lemma cell_beyond_rows (rows cols : nat) (d : Np.ndarray2) (a b : nat) :
  shaped rows cols d -> (rows <= a)%nat -> cell d a b = None.
Proof.
  intros [Hr _] Ha. unfold cell. now rewrite lookup_ge_None_2 by lia.
Qed.

Lemma cell_beyond_cols (rows cols : nat) (d : Np.ndarray2) (a b : nat) :
  shaped rows cols d -> (cols <= b)%nat -> cell d a b = None.
Proof.
  intros [_ Hc] Hb. unfold cell. destruct (d !! a) as [row|] eqn:E; [|easy].
  eapply (proj1 (Forall_lookup _ d)) in Hc; eauto.
  apply lookup_ge_None_2. lia.
Qed.

Lemma for_each_preserves {S : Type} (I : S -> Prop)
    (body : Z -> S -> result S) (l : list Z) :
  (forall i s s', I s -> body i s = Ok s' -> I s') ->
  forall s s', I s -> Py.for_each l body s = Ok s' -> I s'.
Proof.
  intros Hbody. induction l as [|i l IH]; simpl; intros s s' Hs H.
  - now injection H as <-.
  - destruct (body i s) as [s1|e] eqn:E; simpl in H; [|discriminate].
    eapply IH; [|exact H]. eapply Hbody; eauto.
Qed.

Lemma iadd_shape (d d' : Np.ndarray2) (i j : Z) (v : Q) :
  Np.iadd d i j v = Ok d' -> shape d' = shape d.
Proof.
  unfold Np.iadd, Np.getitem1.
  destruct (Np.axis_index (length d) i) as [ki|e]; [|discriminate].
  rewrite !bind_Ok. destruct (d !! ki) as [row|] eqn:Hrow; [|discriminate].
  rewrite bind_Ok.
  destruct (Np.axis_index (length row) j) as [kj|e]; [|discriminate].
  rewrite !bind_Ok. destruct (row !! kj) as [old|]; [|discriminate].
  rewrite !bind_Ok. intros [= <-]. unfold shape.
  rewrite list_fmap_insert, length_insert.
  apply list_insert_id. now rewrite list_lookup_fmap, Hrow.
Qed.

Lemma same_parameters_set_data (p s : Projection.t) (d : Np.ndarray2) :
  same_parameters p s -> same_parameters p (Projection.set_data s d).
Proof. intros H. exact H. Qed.

Lemma same_parameters_refl (p : Projection.t) : same_parameters p p.
Proof. repeat split. Qed.

Section AddObject.

Variable lib : NumLib.
Variable obj : AttenuationObject.
Variable eta_range : Q * Q.

Lemma add_object_cell_frame (p : Projection.t) (i j : Z)
    (s s' : Projection.t) :
  frame p s ->
  Projection.add_object_cell lib obj eta_range i j s = Ok s' ->
  frame p s'.
Proof.
  intros [Hp Hs]. unfold Projection.add_object_cell.
  destruct (Np.iadd _ _ _ _) as [d'|e] eqn:E; [|discriminate].
  rewrite bind_Ok. intros [= <-]. split.
  - now apply same_parameters_set_data.
  - simpl. now rewrite (iadd_shape _ _ _ _ _ E).
Qed.

Lemma add_object_frame (p p' : Projection.t) :
  Projection.add_object lib p obj eta_range = Ok p' -> frame p p'.
Proof.
  unfold Projection.add_object.
  apply (for_each_preserves (frame p)).
  - intros i s s' Hs. apply (for_each_preserves (frame p)); [|exact Hs].
    intros j. apply add_object_cell_frame.
  - split; [apply same_parameters_refl | reflexivity].
Qed.

End AddObject.

Section AddObjectLoops.

Variable lib : NumLib.
Variable obj : AttenuationObject.
Variable eta_range : Q * Q.

Local Abbreviation added s a b :=
  (fun c : Q => c + contribution lib obj eta_range s a b).

Section Shaped.

Variables rows cols : nat.

(** The inner loop, on the columns [k .. k + n - 1] of the row [i]. *)
Lemma add_object_columns (i : nat) (n : nat) :
forall (k : nat) (s : Projection.t),
shaped rows cols (Projection.data s) ->
(i < rows)%nat -> (k + n <= cols)%nat ->
exists d',
  Py.for_each (map Z.of_nat (seq k n))
    (fun xi_idx =>
       Projection.add_object_cell lib obj eta_range (Z.of_nat i) xi_idx)
    s = Ok (Projection.set_data s d')
  /\ shaped rows cols d'
  /\ forall a b,
       cell d' a b
       = if decide (a = i /\ (k <= b < k + n)%nat)
         then added s a b <$> cell (Projection.data s) a b
         else cell (Projection.data s) a b.
Proof.
induction n as [|n IH]; intros k s Hs Hi Hk.
- exists (Projection.data s). simpl. rewrite set_data_data.
repeat split; try apply Hs.
intros a b. rewrite decide_False by lia. reflexivity.
- destruct (shaped_cell _ _ _ i k Hs Hi) as (row & old & Hrow & _ & Hold & Hc);
  [lia|].
set (v := contribution lib obj eta_range s i k).
set (d1 := <[i := <[k := old + v]> row]> (Projection.data s)).
assert (Hs1 : shaped rows cols d1) by now apply shaped_update.
destruct (IH (S k) (Projection.set_data s d1) Hs1 Hi) as (d' & Hrun & Hs' & Hcells);
  [lia|].
exists d'. split; [|split; [exact Hs'|]].
+ simpl. unfold Projection.add_object_cell at 1.
  rewrite (iadd_cell _ i k row old _ Hrow Hold), bind_Ok.
  exact Hrun.
+ intros a b. rewrite Hcells. simpl Projection.data.
  unfold d1. rewrite (cell_update _ i k row old _ a b Hrow Hold).
  destruct (decide (a = i /\ b = k)) as [[-> ->]|Hne].
  * rewrite decide_False by lia. rewrite decide_True by lia.
    now rewrite Hc.
  * destruct (decide (a = i /\ (S k <= b < S k + n)%nat)) as [H|H].
    -- now rewrite decide_True by lia.
    -- rewrite decide_False; [reflexivity|].
       intros [-> Hb]. apply H. split; [reflexivity|].
       assert (b <> k) by tauto. lia.
Qed.

(** The outer loop, on the rows [k .. k + n - 1]. *)
Lemma add_object_rows (n : nat) :
forall (k : nat) (s : Projection.t),
shaped rows cols (Projection.data s) ->
cols = Z.to_nat (Projection.xi_steps s) ->
(k + n <= rows)%nat ->
exists d',
  Py.for_each (map Z.of_nat (seq k n))
    (fun theta_idx self =>
       Py.for_each (Py.range (Projection.xi_steps self))
         (fun xi_idx =>
            Projection.add_object_cell lib obj eta_range theta_idx xi_idx)
         self)
    s = Ok (Projection.set_data s d')
  /\ shaped rows cols d'
  /\ forall a b,
       cell d' a b
       = if decide (k <= a < k + n)%nat
         then added s a b <$> cell (Projection.data s) a b
         else cell (Projection.data s) a b.
Proof.
induction n as [|n IH]; intros k s Hs Hcols Hk.
- exists (Projection.data s). simpl. rewrite set_data_data.
repeat split; try apply Hs.
intros a b. rewrite decide_False by lia. reflexivity.
- destruct (add_object_columns k cols 0%nat s Hs) as (d1 & Hrun1 & Hs1 & Hc1);
  [lia | lia |].
destruct (IH (S k) (Projection.set_data s d1) Hs1 Hcols) as (d' & Hrun & Hs' & Hcells);
  [lia|].
exists d'. split; [|split; [exact Hs'|]].
+ simpl. unfold Py.range at 1. rewrite <- Hcols. rewrite Hrun1.
  exact Hrun.
+ intros a b. rewrite Hcells. simpl Projection.data. rewrite Hc1.
  repeat case_decide; try reflexivity; try (exfalso; lia).
  rewrite (cell_beyond_cols _ _ _ a b Hs) by lia. reflexivity.
Qed.

Lemma add_object_cells (p : Projection.t) :
shaped rows cols (Projection.data p) ->
rows = Z.to_nat (Projection.theta_steps p) ->
cols = Z.to_nat (Projection.xi_steps p) ->
exists d',
Projection.add_object lib p obj eta_range = Ok (Projection.set_data p d')
/\ shaped rows cols d'
/\ forall a b,
     cell d' a b = added p a b <$> cell (Projection.data p) a b.
Proof.
intros Hs Hrows Hcols.
destruct (add_object_rows rows 0%nat p Hs Hcols) as (d' & Hrun & Hs' & Hcells);
[lia|].
exists d'. split; [|split; [exact Hs'|]].
- unfold Projection.add_object, Py.range at 1. rewrite <- Hrows.
exact Hrun.
- intros a b. rewrite Hcells.
destruct (decide (a < rows)%nat) as [Ha|Ha].
+ now rewrite decide_True by lia.
+ rewrite decide_False by lia.
  rewrite (cell_beyond_rows _ _ _ a b Hs) by lia. reflexivity.
Qed.

End Shaped.

Lemma add_object_wf (p : Projection.t) :
  wf p ->
  exists p',
    Projection.add_object lib p obj eta_range = Ok p' /\ wf p'
    /\ same_parameters p p'
    /\ forall a b,
         cell (Projection.data p') a b
         = added p a b <$> cell (Projection.data p) a b.
Proof.
  intros Hwf.
  destruct (add_object_cells _ _ p (wf_data p Hwf) eq_refl eq_refl)
    as (d' & Hrun & Hs' & Hcells).
  exists (Projection.set_data p d'). split; [exact Hrun|].
  split; [|split; [apply same_parameters_set_data, same_parameters_refl | exact Hcells]].
  destruct Hwf. constructor; assumption.
Qed.

End AddObjectLoops.

(** C9: a call of [add_object] that returns leaves the eight grid
    parameters and the shape of [data] as they were; on a grid as the
    constructor builds it, and as [add_object] leaves it, the call returns. *)
Theorem add_object_frame_parameters (lib : NumLib) (p : Projection.t)
    (obj : AttenuationObject) (eta_range : Q * Q) :
  (forall p',
     Projection.add_object lib p obj eta_range = Ok p' ->
     Projection.theta_min p' = Projection.theta_min p
     /\ Projection.theta_max p' = Projection.theta_max p
     /\ Projection.theta_steps p' = Projection.theta_steps p
     /\ Projection.theta_step_size p' = Projection.theta_step_size p
     /\ Projection.xi_min p' = Projection.xi_min p
     /\ Projection.xi_max p' = Projection.xi_max p
     /\ Projection.xi_steps p' = Projection.xi_steps p
     /\ Projection.xi_step_size p' = Projection.xi_step_size p
     /\ length (Projection.data p') = length (Projection.data p)
     /\ shape (Projection.data p') = shape (Projection.data p))
  /\ (wf p ->
      exists p', Projection.add_object lib p obj eta_range = Ok p' /\ wf p').
Proof.
  split.
  - intros p' H. apply add_object_frame in H. destruct H as [Hp Hs].
    destruct Hp as (? & ? & ? & ? & ? & ? & ? & ?).
    repeat (split; [assumption|]). split; [|exact Hs].
    unfold shape in Hs. apply (f_equal length) in Hs.
    now rewrite !length_fmap in Hs.
  - intros Hwf.
    destruct (add_object_wf lib obj eta_range p Hwf) as (p' & H & Hwf' & _).
    eauto.
Qed.

Lemma add_object_frame_parameters_witness :
  let obj := ARectangle (Rectangle.__init__ (-1) 1 (-1) 1 1) in
  exists p',
    Projection.add_object example_lib example_grid obj (-2, 2) = Ok p'
    /\ Projection.xi_step_size p' = Projection.xi_step_size example_grid
    /\ shape (Projection.data p') = [2; 2]%nat.
Proof.
  intros obj.
  destruct (add_object_frame_parameters example_lib example_grid obj (-2, 2))
    as [Hframe Htotal].
  destruct (Htotal example_grid_wf) as (p' & Hrun & _).
  exists p'. split; [exact Hrun|].
  destruct (Hframe p' Hrun) as (_ & _ & _ & _ & _ & _ & _ & Hx & _ & Hs).
  split; [exact Hx | exact Hs].
Defined.

Lemma contribution_same_parameters (lib : NumLib) (obj : AttenuationObject)
    (eta_range : Q * Q) (p q : Projection.t) (a b : nat) :
  same_parameters p q ->
  contribution lib obj eta_range q a b = contribution lib obj eta_range p a b.
Proof.
  intros (H1 & _ & _ & H2 & H3 & _ & _ & H4).
  unfold contribution, Projection.theta, Projection.xi.
  now rewrite H1, H2, H3, H4.
Qed.

Lemma cell_replicate (rows cols a b : nat) (c : Q) :
  (a < rows)%nat -> (b < cols)%nat ->
  cell (replicate rows (replicate cols c)) a b = Some c.
Proof.
  intros Ha Hb. unfold cell.
  rewrite lookup_replicate_2 by exact Ha. now apply lookup_replicate_2.
Qed.

(** C6: on a grid as the constructor builds it, and as [add_object] leaves
    it, one call of [add_object] returns and adds to every cell
    [(theta_idx, xi_idx)] the value of [project_attenuation] at
    [(theta(theta_idx), xi(xi_idx))], keeping what the cell held; two calls
    on a newly constructed grid leave in every cell twice what one call
    leaves there. *)
Theorem add_object_accumulates (lib : NumLib) (theta_range : list Q)
    (theta_steps : Z) (xi_range : list Q) (xi_steps : Z)
    (p0 p : Projection.t) (obj : AttenuationObject) (eta_range : Q * Q) :
  Projection.__init__ theta_range theta_steps xi_range xi_steps = Ok p0 ->
  wf p ->
  (exists p',
     Projection.add_object lib p obj eta_range = Ok p'
     /\ forall a b,
          cell (Projection.data p') a b
          = (fun old =>
               old + project_attenuation lib obj
                       (Projection.theta p (Z.of_nat a))
                       (Projection.xi p (Z.of_nat b)) eta_range)
            <$> cell (Projection.data p) a b)
  /\ (exists p1 p2,
        Projection.add_object lib p0 obj eta_range = Ok p1
        /\ Projection.add_object lib p1 obj eta_range = Ok p2
        /\ forall a b,
             (a < Z.to_nat theta_steps)%nat -> (b < Z.to_nat xi_steps)%nat ->
             exists v1 v2,
               cell (Projection.data p1) a b = Some v1
               /\ cell (Projection.data p2) a b = Some v2
               /\ v2 == 2 * v1).
Proof.
  intros Hinit Hwf. split.
  - destruct (add_object_wf lib obj eta_range p Hwf) as (p' & Hrun & _ & _ & Hc).
    exists p'. split; [exact Hrun | exact Hc].
  - pose proof (init_wf _ _ _ _ _ Hinit) as Hwf0.
    destruct (add_object_wf lib obj eta_range p0 Hwf0)
      as (p1 & Hrun1 & Hwf1 & Hp1 & Hc1).
    destruct (add_object_wf lib obj eta_range p1 Hwf1)
      as (p2 & Hrun2 & _ & _ & Hc2).
    exists p1, p2. split; [exact Hrun1|]. split; [exact Hrun2|].
    intros a b Ha Hb.
    apply init_Ok_inv in Hinit.
    destruct Hinit as (tmin & tmax & xmin & xmax & _ & _ & _ & _ & _ & _ & E).
    assert (H0 : cell (Projection.data p0) a b = Some 0)
      by (rewrite E; simpl; now apply cell_replicate).
    pose proof (Hc1 a b) as H1. rewrite H0 in H1. simpl in H1.
    pose proof (Hc2 a b) as H2. rewrite H1 in H2. simpl in H2.
    rewrite (contribution_same_parameters _ _ _ p0 p1 a b Hp1) in H2.
    eexists _, _. split; [exact H1|]. split; [exact H2|]. ring.
Qed.

Lemma add_object_accumulates_witness :
  let obj := ARectangle (Rectangle.__init__ (-1) 1 (-1) 1 1) in
  exists p1 p2,
    Projection.add_object example_lib example_grid obj (-2, 2) = Ok p1
    /\ Projection.add_object example_lib p1 obj (-2, 2) = Ok p2
    /\ exists v1 v2,
         cell (Projection.data p1) 0 1 = Some v1
         /\ cell (Projection.data p2) 0 1 = Some v2
         /\ v2 == 2 * v1.
Proof.
  intros obj.
  destruct (add_object_accumulates example_lib [0; 3] 2 [-2; 2] 2
              example_grid example_grid obj (-2, 2)
              example_grid_init example_grid_wf)
    as [_ (p1 & p2 & H1 & H2 & Hc)].
  exists p1, p2. split; [exact H1|]. split; [exact H2|].
  apply Hc; vm_compute; lia.
Defined.

(** ** Further properties of the attenuation objects *)

Lemma min2_max2_between (a b x : Q) :
  (Py.min2 a b <= x /\ x <= Py.max2 a b) <-> between a b x.
Proof.
  unfold Py.min2, Py.max2, between.
  destruct (Py.lt b a) eqn:E1, (Py.lt a b) eqn:E2;
    first [apply lt_true in E1 | apply lt_false in E1];
    first [apply lt_true in E2 | apply lt_false in E2];
    split; intros H; lra.
Qed.

Lemma rectangle_test_between (x1 x2 y1 y2 f x y : Q) :
  inside_rectangle (Rectangle.__init__ x1 x2 y1 y2 f) x y
  <-> between x1 x2 x /\ between y1 y2 y.
Proof.
  unfold inside_rectangle. simpl. now rewrite !min2_max2_between.
Qed.

Lemma between_sym (a b x : Q) : between a b x <-> between b a x.
Proof. unfold between. tauto. Qed.

(** The density of a rectangle, in terms of the four bounds as they are
    given to the constructor: it is the factor at the points whose [x] lies
    between [x1] and [x2] and whose [y] lies between [y1] and [y2], in
    whichever order the bounds were given, and [0] elsewhere. *)
Theorem rectangle_attenuation_between (x1 x2 y1 y2 f x y : Q) :
  (between x1 x2 x /\ between y1 y2 y ->
   Rectangle.attenuation (Rectangle.__init__ x1 x2 y1 y2 f) x y = f)
  /\ (~ (between x1 x2 x /\ between y1 y2 y) ->
      Rectangle.attenuation (Rectangle.__init__ x1 x2 y1 y2 f) x y = 0).
Proof.
  split; intros H.
  - apply (proj2 (rectangle_test_between x1 x2 y1 y2 f x y)) in H.
    now rewrite (rectangle_attenuation_inside _ _ _ H).
  - apply rectangle_attenuation_outside. now rewrite rectangle_test_between.
Qed.

Lemma rectangle_attenuation_between_witness :
  Rectangle.attenuation (Rectangle.__init__ 0 (-1) 0 (-1) 1) (-1 # 2) (-1)
  = 1
  /\ Rectangle.attenuation (Rectangle.__init__ 0 (-1) 0 (-1) 1) (1 # 2) 0
     = 0.
Proof.
  destruct (rectangle_attenuation_between 0 (-1) 0 (-1) 1 (-1 # 2) (-1))
    as [Hin _].
  destruct (rectangle_attenuation_between 0 (-1) 0 (-1) 1 (1 # 2) 0)
    as [_ Hout].
  split.
  - apply Hin. unfold between. split; right; split; discriminate.
  - apply Hout. unfold between.
    intros [[[_ H]|[_ H]] _]; apply H; reflexivity.
Defined.

(** Exchanging the two [x] bounds, or the two [y] bounds, given to the
    constructor of a rectangle does not change its density anywhere. *)
Theorem rectangle_bounds_order (x1 x2 y1 y2 f x y : Q) :
  Rectangle.attenuation (Rectangle.__init__ x2 x1 y1 y2 f) x y
  = Rectangle.attenuation (Rectangle.__init__ x1 x2 y1 y2 f) x y
  /\ Rectangle.attenuation (Rectangle.__init__ x1 x2 y2 y1 f) x y
     = Rectangle.attenuation (Rectangle.__init__ x1 x2 y1 y2 f) x y.
Proof.
  assert (Hswap : forall a b c d a' b' c' d',
            (between a b x <-> between a' b' x) ->
            (between c d y <-> between c' d' y) ->
            Rectangle.attenuation (Rectangle.__init__ a b c d f) x y
            = Rectangle.attenuation (Rectangle.__init__ a' b' c' d' f) x y).
  { intros a b c d a' b' c' d' Hx Hy. unfold Rectangle.attenuation.
    match goal with
    | |- (if ?t1 then _ else _) = (if ?t2 then _ else _) =>
        assert (Ht : t1 = t2)
    end.
    { apply Bool.eq_iff_eq_true.
      rewrite !rectangle_test, !rectangle_test_between. tauto. }
    now rewrite Ht. }
  split; apply Hswap; try tauto; apply between_sym.
Qed.

Lemma Qabs_opp_eq (r : Q) : Qabs (- r) = Qabs r.
Proof. destruct r as [n d]. simpl. now rewrite Z.abs_opp. Qed.

(** A circle keeps the absolute value of the radius it is given: the stored
    radius is at least [0], and a radius and its opposite give the same
    circle, with the same density everywhere. *)
Theorem circle_radius_sign (lib : NumLib) (x0 y0 r f x y : Q) :
  0 <= Circle.r (Circle.__init__ x0 y0 r f)
  /\ Circle.__init__ x0 y0 (- r) f = Circle.__init__ x0 y0 r f
  /\ Circle.attenuation lib (Circle.__init__ x0 y0 (- r) f) x y
     = Circle.attenuation lib (Circle.__init__ x0 y0 r f) x y.
Proof.
  assert (E : Circle.__init__ x0 y0 (- r) f = Circle.__init__ x0 y0 r f)
    by (unfold Circle.__init__; now rewrite Qabs_opp_eq).
  split; [apply Qabs_nonneg|]. split; [exact E | now rewrite E].
Qed.

(** With a square root that is [0] at [0], a circle contains its centre,
    whatever its radius: the density at [(x0, y0)] is the factor. *)
Theorem circle_attenuation_centre (lib : NumLib) (x0 y0 r f : Q) :
  sqrt_of_zero lib ->
  Circle.attenuation lib (Circle.__init__ x0 y0 r f) x0 y0 = f.
Proof.
  intros Hsqrt. unfold Circle.attenuation. simpl.
  replace (Py.le _ (Qabs r)) with true; [reflexivity|].
  symmetry. apply le_true.
  assert (E : np_sqrt lib ((x0 - x0) ^ 2 + (y0 - y0) ^ 2) == 0)
    by (apply Hsqrt; simpl; ring).
  rewrite E. apply Qabs_nonneg.
Qed.

Lemma example_lib_sqrt_of_zero : sqrt_of_zero example_lib.
Proof.
  intros q Hq.
  change (Z.sqrt (Qfloor (q * 1000000000000)) # 1000000 == 0).
  assert (E : Qfloor (q * 1000000000000) = 0%Z) by now rewrite Hq.
  now rewrite E.
Qed.

Lemma circle_attenuation_centre_witness :
  Circle.attenuation example_lib (Circle.__init__ (8 # 10) (1 # 10) 0 1)
    (8 # 10) (1 # 10) = 1.
Proof.
  apply (circle_attenuation_centre example_lib (8 # 10) (1 # 10) 0 1).
  apply example_lib_sqrt_of_zero.
Defined.

Lemma sum_attenuation_app (lib : NumLib) (l l' : list AttenuationObject)
    (x y : Q) :
  sum_attenuation lib (l ++ l') x y
  == sum_attenuation lib l x y + sum_attenuation lib l' x y.
Proof.
  induction l as [|m l IH]; simpl.
  - ring.
  - rewrite IH. ring.
Qed.

(** [append] accepts the attenuation objects and nothing else: a number or
    [None] raises [RuntimeError]; an object is put at the end of the
    collection, which then holds one member more and whose density, at
    every point, is the density it had plus the density of the new
    member. *)
Theorem append_adds_density (lib : NumLib) (self : ObjectCollection.t)
    (obj : pyvalue) :
  (forall o, obj = PObject o ->
     exists self',
       ObjectCollection.append self obj = Ok self'
       /\ self' = self ++ [o]
       /\ forall x y,
            attenuation lib (AObjectCollection self') x y
            == attenuation lib (AObjectCollection self) x y
               + attenuation lib o x y)
  /\ ((forall o, obj <> PObject o) ->
      ObjectCollection.append self obj = Raise RuntimeError).
Proof.
  split.
  - intros o ->. exists (self ++ [o]). repeat split.
    intros x y. rewrite !collection_attenuation_sum, sum_attenuation_app.
    simpl. ring.
  - intros H. destruct obj as [o| |]; [|reflexivity..].
    now destruct (H o).
Qed.

Lemma append_adds_density_witness :
  let a := ARectangle (Rectangle.__init__ (-1) 0 (-1) 0 1) in
  let b := ACircle (Circle.__init__ 0 0 1 3) in
  (exists self',
     ObjectCollection.append [a] (PObject b) = Ok self'
     /\ self' = [a; b]
     /\ forall x y,
          attenuation example_lib (AObjectCollection self') x y
          == attenuation example_lib (AObjectCollection [a]) x y
             + attenuation example_lib b x y)
  /\ ObjectCollection.append [a] (PNumber 3) = Raise RuntimeError.
Proof.
  intros a b.
  destruct (append_adds_density example_lib [a] (PObject b)) as [Hok _].
  destruct (append_adds_density example_lib [a] (PNumber 3)) as [_ Hbad].
  split.
  - apply Hok. reflexivity.
  - apply Hbad. discriminate.
Defined.

(** A collection that holds one object has the density of that object, and
    an inner collection in the first place of a collection counts as its
    members do: putting them directly at the head of the outer collection
    gives the same density everywhere. *)
Theorem collection_wrapping (lib : NumLib) (m : AttenuationObject)
    (inner after : list AttenuationObject) (x y : Q) :
  attenuation lib (AObjectCollection [m]) x y == attenuation lib m x y
  /\ attenuation lib (AObjectCollection (AObjectCollection inner :: after))
       x y
     == attenuation lib (AObjectCollection (inner ++ after)) x y.
Proof.
  split.
  - rewrite collection_attenuation_sum. simpl. ring.
  - rewrite !collection_attenuation_sum, sum_attenuation_app.
    change (sum_attenuation lib (AObjectCollection inner :: after) x y)
      with (attenuation lib (AObjectCollection inner) x y
            + sum_attenuation lib after x y).
    now rewrite collection_attenuation_sum.
Qed.

(** ** Sampling an object on a grid of points: [to_array] *)

Lemma shaped_ext (rows cols : nat) (d d' : Np.ndarray2) :
  shaped rows cols d -> shaped rows cols d' ->
  (forall a b, (a < rows)%nat -> (b < cols)%nat -> cell d a b = cell d' a b) ->
  d = d'.
Proof.
  intros [Hr Hc] [Hr' Hc'] Hcells. apply list_eq. intros a.
  destruct (decide (a < rows)%nat) as [Ha|Ha].
  - destruct (lookup_lt_is_Some_2 d a) as [row Hrow]; [lia|].
    destruct (lookup_lt_is_Some_2 d' a) as [row' Hrow']; [lia|].
    rewrite Hrow, Hrow'. f_equal.
    assert (Hl : length row = cols)
      by (eapply (proj1 (Forall_lookup _ d)) in Hc; eauto).
    assert (Hl' : length row' = cols)
      by (eapply (proj1 (Forall_lookup _ d')) in Hc'; eauto).
    apply list_eq. intros b.
    destruct (decide (b < cols)%nat) as [Hb|Hb].
    + specialize (Hcells a b Ha Hb). unfold cell in Hcells.
      now rewrite Hrow, Hrow' in Hcells.
    + now rewrite !lookup_ge_None_2 by lia.
  - now rewrite !lookup_ge_None_2 by lia.
Qed.

Lemma setitem_cell (d : Np.ndarray2) (i j : nat) (row : list Q) (old v : Q) :
  d !! i = Some row -> row !! j = Some old ->
  Np.setitem d (Z.of_nat i) (Z.of_nat j) v = Ok (<[i := <[j := v]> row]> d).
Proof.
  intros Hrow Hold. unfold Np.setitem.
  rewrite axis_index_nonneg by (eapply lookup_lt_Some; eauto).
  rewrite bind_Ok, Hrow.
  rewrite axis_index_nonneg by (eapply lookup_lt_Some; eauto).
  now rewrite bind_Ok.
Qed.

Section ToArray.

Variable lib : NumLib.
Variable self : AttenuationObject.
Variables xs ys : list Q.

Let sample (a b : nat) : option Q :=
  match xs !! a, ys !! b with
  | Some x, Some y => Some (attenuation lib self x y)
  | _, _ => None
  end.

Let body (idx : Z * Z) (data : Np.ndarray2) : result Np.ndarray2 :=
  xv ← Np.getitem1 xs (fst idx);
  yv ← Np.getitem1 ys (snd idx);
  Np.setitem data (fst idx) (snd idx) (attenuation lib self xv yv).

Lemma to_array_loop (l : list (nat * nat)) :
  forall d : Np.ndarray2,
    shaped (length xs) (length ys) d ->
    Forall (fun ij => (fst ij < length xs)%nat /\ (snd ij < length ys)%nat) l ->
    exists d',
      Py.for_in (map (fun ij => (Z.of_nat (fst ij), Z.of_nat (snd ij))) l)
        body d = Ok d'
      /\ shaped (length xs) (length ys) d'
      /\ forall a b,
           cell d' a b
           = if decide ((a, b) ∈ l) then sample a b else cell d a b.
Proof.
  induction l as [|[i j] l IH]; intros d Hs Hl.
  - exists d. split; [reflexivity|]. split; [exact Hs|].
    intros a b. rewrite decide_False; [reflexivity | apply not_elem_of_nil].
  - apply Forall_cons_1 in Hl. destruct Hl as [[Hi Hj] Hl]. simpl in Hi, Hj.
    destruct (lookup_lt_is_Some_2 xs i Hi) as [xv Hxv].
    destruct (lookup_lt_is_Some_2 ys j Hj) as [yv Hyv].
    destruct (shaped_cell _ _ d i j Hs Hi Hj)
      as (row & old & Hrow & _ & Hold & _).
    set (d1 := <[i := <[j := attenuation lib self xv yv]> row]> d).
    assert (Hs1 : shaped (length xs) (length ys) d1)
      by now apply shaped_update.
    destruct (IH d1 Hs1 Hl) as (d' & Hrun & Hs' & Hcells).
    exists d'. split; [|split; [exact Hs'|]].
    + simpl. unfold body at 1. simpl fst. simpl snd.
      rewrite (getitem1_nonneg _ _ _ Hxv), bind_Ok.
      rewrite (getitem1_nonneg _ _ _ Hyv), bind_Ok.
      rewrite (setitem_cell _ _ _ _ _ _ Hrow Hold). exact Hrun.
    + intros a b. rewrite Hcells. unfold d1.
      rewrite (cell_update _ i j row old _ a b Hrow Hold).
      destruct (decide ((a, b) ∈ l)) as [Hin|Hnin].
      * rewrite decide_True; [reflexivity | apply elem_of_cons; now right].
      * destruct (decide (a = i /\ b = j)) as [[-> ->]|Hne].
        -- rewrite decide_True by (apply elem_of_cons; now left).
           subst sample. simpl. now rewrite Hxv, Hyv.
        -- rewrite decide_False; [reflexivity|].
           intros Hin. apply elem_of_cons in Hin.
           destruct Hin as [[= -> ->]|Hin]; tauto.
Qed.

Lemma ndindex_in_range (n m : nat) :
  Forall (fun ij => (fst ij < n)%nat /\ (snd ij < m)%nat)
    (list_prod (seq 0 n) (seq 0 m)).
Proof.
  apply List.Forall_forall. intros [a b] Hin.
  apply in_prod_iff in Hin. rewrite !in_seq in Hin. simpl. lia.
Qed.

Lemma ndindex_complete (n m a b : nat) :
  (a < n)%nat -> (b < m)%nat -> (a, b) ∈ list_prod (seq 0 n) (seq 0 m).
Proof.
  intros Ha Hb. apply list_elem_of_In, in_prod_iff.
  rewrite !in_seq. lia.
Qed.

Lemma to_array_map :
  to_array lib self xs ys
  = Ok ((fun x => (fun y => attenuation lib self x y) <$> ys) <$> xs).
Proof.
  unfold to_array, Np.zeros.
  replace ((Z.of_nat (length xs) <? 0) || (Z.of_nat (length ys) <? 0))%Z
    with false
    by (symmetry; apply orb_false_iff; split; apply Z.ltb_ge; lia).
  rewrite bind_Ok, !Nat2Z.id.
  destruct (to_array_loop (list_prod (seq 0 (length xs)) (seq 0 (length ys)))
              _ (shaped_replicate (length xs) (length ys) 0)
              (ndindex_in_range _ _)) as (d' & Hrun & Hs' & Hcells).
  unfold Np.ndindex. fold body. rewrite Hrun. f_equal.
  apply (shaped_ext (length xs) (length ys)); [exact Hs'| |].
  - split; [now rewrite length_fmap|].
    apply Forall_fmap, Forall_true. intros x. simpl. now rewrite length_fmap.
  - intros a b Ha Hb. rewrite Hcells.
    rewrite decide_True by now apply ndindex_complete.
    unfold cell. rewrite list_lookup_fmap. subst sample. simpl.
    destruct (xs !! a) as [x|]; simpl; [|reflexivity].
    rewrite list_lookup_fmap. now destruct (ys !! b).
Qed.

End ToArray.

(** [to_array] always returns: the array has one row for each entry of [x]
    and one column for each entry of [y], also when [x] or [y] is empty,
    and it holds at [(i, j)] the density of the object at
    [(x[i], y[j])]. *)
Theorem to_array_samples (lib : NumLib) (self : AttenuationObject)
    (x y : list Q) :
  exists data,
    to_array lib self x y = Ok data
    /\ shaped (length x) (length y) data
    /\ forall i j xv yv,
         x !! i = Some xv -> y !! j = Some yv ->
         cell data i j = Some (attenuation lib self xv yv).
Proof.
  eexists. split; [apply to_array_map|]. split.
  - split; [now rewrite length_fmap|].
    apply Forall_fmap, Forall_true. intros xv. simpl. now rewrite length_fmap.
  - intros i j xv yv Hx Hy. unfold cell.
    rewrite list_lookup_fmap, Hx. simpl.
    now rewrite list_lookup_fmap, Hy.
Qed.

(** ** Further properties of the construction of a projection *)

(** With non-empty ranges and positive step counts the constructor returns
    a grid; a grid it returns comes from non-empty ranges and step counts
    that are not negative, and its data has [theta_steps] rows of
    [xi_steps] entries, all of them [0]. *)
Theorem init_succeeds (theta_range : list Q) (theta_steps : Z)
    (xi_range : list Q) (xi_steps : Z) :
  (theta_range <> [] -> xi_range <> [] ->
   (0 < theta_steps)%Z -> (0 < xi_steps)%Z ->
   exists p,
     Projection.__init__ theta_range theta_steps xi_range xi_steps = Ok p)
  /\ (forall p,
        Projection.__init__ theta_range theta_steps xi_range xi_steps = Ok p ->
        theta_range <> [] /\ xi_range <> []
        /\ (0 <= theta_steps)%Z /\ (0 <= xi_steps)%Z
        /\ Projection.data p
           = replicate (Z.to_nat theta_steps)
               (replicate (Z.to_nat xi_steps) 0)).
Proof.
  split.
  - intros Ht Hx Hts Hxs.
    destruct (min_nonempty _ Ht) as [tmin E1].
    destruct (max_nonempty _ Ht) as [tmax E2].
    destruct (min_nonempty _ Hx) as [xmin E3].
    destruct (max_nonempty _ Hx) as [xmax E4].
    unfold Projection.__init__.
    rewrite E1, bind_Ok, E2, bind_Ok.
    rewrite div_nonzero, bind_Ok by (apply inject_Z_nonzero; lia).
    rewrite E3, bind_Ok, E4, bind_Ok.
    rewrite div_nonzero, bind_Ok by (apply inject_Z_nonzero; lia).
    rewrite zeros_nonneg, bind_Ok by lia. eauto.
  - intros p E. apply init_Ok_inv in E.
    destruct E as (? & ? & ? & ? & T1 & _ & X1 & _ & Ht & Hx & ->).
    split; [eapply min_Ok_nonempty; exact T1|].
    split; [eapply min_Ok_nonempty; exact X1|].
    repeat split; lia.
Qed.

Lemma init_succeeds_witness :
  exists p,
    Projection.__init__ [0; 3] 2 [-2; 2] 2 = Ok p
    /\ Projection.data p = [[0; 0]; [0; 0]].
Proof.
  destruct (init_succeeds [0; 3] 2 [-2; 2] 2) as [Hyes Hdata].
  destruct Hyes as [p E]; [discriminate | discriminate | lia | lia |].
  exists p. split; [exact E|].
  destruct (Hdata p E) as (_ & _ & _ & _ & Hd). exact Hd.
Defined.

Lemma min2_comm (a b : Q) : Py.min2 a b == Py.min2 b a.
Proof.
  unfold Py.min2.
  destruct (Py.lt b a) eqn:E1, (Py.lt a b) eqn:E2;
    first [apply lt_true in E1 | apply lt_false in E1];
    first [apply lt_true in E2 | apply lt_false in E2]; lra.
Qed.

Lemma max2_comm (a b : Q) : Py.max2 a b == Py.max2 b a.
Proof.
  unfold Py.max2.
  destruct (Py.lt b a) eqn:E1, (Py.lt a b) eqn:E2;
    first [apply lt_true in E1 | apply lt_false in E1];
    first [apply lt_true in E2 | apply lt_false in E2]; lra.
Qed.

(** The order of the two bounds of a range does not matter to the
    constructor: with [theta_range] and [xi_range] reversed it returns a grid
    with equal bounds and step sizes, the same step counts and the same
    data. *)
Theorem init_range_order (a b c d : Q) (theta_steps xi_steps : Z)
    (p : Projection.t) :
  Projection.__init__ [a; b] theta_steps [c; d] xi_steps = Ok p ->
  exists p',
    Projection.__init__ [b; a] theta_steps [d; c] xi_steps = Ok p'
    /\ Projection.theta_min p' == Projection.theta_min p
    /\ Projection.theta_max p' == Projection.theta_max p
    /\ Projection.theta_step_size p' == Projection.theta_step_size p
    /\ Projection.xi_min p' == Projection.xi_min p
    /\ Projection.xi_max p' == Projection.xi_max p
    /\ Projection.xi_step_size p' == Projection.xi_step_size p
    /\ Projection.theta_steps p' = Projection.theta_steps p
    /\ Projection.xi_steps p' = Projection.xi_steps p
    /\ Projection.data p' = Projection.data p.
Proof.
  intros E. apply init_Ok_inv in E.
  destruct E as (tmin & tmax & xmin & xmax & T1 & T2 & X1 & X2 & Ht & Hx & ->).
  simpl in T1, T2, X1, X2.
  injection T1 as <-. injection T2 as <-.
  injection X1 as <-. injection X2 as <-.
  eexists. split.
  - unfold Projection.__init__. simpl Py.min. simpl Py.max.
    rewrite !bind_Ok.
    rewrite div_nonzero, !bind_Ok by (apply inject_Z_nonzero; lia).
    rewrite div_nonzero, !bind_Ok by (apply inject_Z_nonzero; lia).
    rewrite zeros_nonneg, bind_Ok by lia. reflexivity.
  - simpl.
    pose proof (min2_comm a b). pose proof (max2_comm a b).
    pose proof (min2_comm c d). pose proof (max2_comm c d).
    repeat split; try (symmetry; assumption).
    + now rewrite (max2_comm b a), (min2_comm b a).
    + now rewrite (max2_comm d c), (min2_comm d c).
Qed.

Lemma init_range_order_witness :
  exists p',
    Projection.__init__ [3; 0] 2 [2; -2] 2 = Ok p'
    /\ Projection.theta_min p' == 0 /\ Projection.theta_max p' == 3
    /\ Projection.xi_min p' == -2 /\ Projection.xi_max p' == 2.
Proof.
  destruct (init_range_order 0 3 (-2) 2 2 2 example_grid example_grid_init)
    as (p' & E & H1 & H2 & _ & H3 & H4 & _).
  exists p'. split; [exact E|]. auto.
Defined.

(** ** Grid coordinates *)

Lemma grid_point_bounds (lo hi : Q) (n idx : Z) :
  (0 < n)%Z -> lo <= hi -> (0 <= idx <= n)%Z ->
  lo <= lo + inject_Z idx * ((hi - lo) / inject_Z n)
  /\ lo + inject_Z idx * ((hi - lo) / inject_Z n) <= hi.
Proof.
  intros Hn Hr [H0 H1].
  assert (Hs : 0 <= (hi - lo) / inject_Z n) by now apply step_size_nonneg.
  assert (Hi0 : 0 <= inject_Z idx)
    by (change 0 with (inject_Z 0); now rewrite <- Zle_Qle).
  assert (Hi1 : inject_Z idx <= inject_Z n) by now rewrite <- Zle_Qle.
  assert (Hz : 0 < inject_Z n)
    by (change 0 with (inject_Z 0); now rewrite <- Zlt_Qlt).
  assert (E : inject_Z n * ((hi - lo) / inject_Z n) == hi - lo)
    by (field; lra).
  split; [|]; nra.
Qed.

(** On a grid as the constructor builds it, [theta(0)] is [theta_min], the
    angles never decrease with the index, and no angle of a non-negative
    index lies below [theta_min]; likewise for [xi]. *)
Theorem grid_coordinates (p : Projection.t) (idx : Z) :
  wf p ->
  (Projection.theta p 0 == Projection.theta_min p
   /\ Projection.theta p idx <= Projection.theta p (idx + 1)
   /\ ((0 <= idx)%Z -> Projection.theta_min p <= Projection.theta p idx))
  /\ (Projection.xi p 0 == Projection.xi_min p
      /\ Projection.xi p idx <= Projection.xi p (idx + 1)
      /\ ((0 <= idx)%Z -> Projection.xi_min p <= Projection.xi p idx)).
Proof.
  intros Hwf.
  pose proof (wf_theta_steps p Hwf) as Ht.
  pose proof (wf_xi_steps p Hwf) as Hx.
  assert (St : 0 <= Projection.theta_step_size p).
  { rewrite (wf_theta_step_size p Hwf).
    apply step_size_nonneg; [exact Ht | apply (wf_theta_range p Hwf)]. }
  assert (Sx : 0 <= Projection.xi_step_size p).
  { rewrite (wf_xi_step_size p Hwf).
    apply step_size_nonneg; [exact Hx | apply (wf_xi_range p Hwf)]. }
  unfold Projection.theta, Projection.xi.
  rewrite inject_Z_plus. change (inject_Z 1) with 1.
  change (inject_Z 0) with 0.
  assert (Hpos : (0 <= idx)%Z -> 0 <= inject_Z idx)
    by (intros H; change 0 with (inject_Z 0); now rewrite <- Zle_Qle).
  split; (split; [ring|]); (split; [nra|]); intros H; specialize (Hpos H);
    nra.
Qed.

Lemma grid_coordinates_witness :
  Projection.xi example_grid 0 == -2
  /\ Projection.xi example_grid 1 <= Projection.xi example_grid (1 + 1)
  /\ -2 <= Projection.xi example_grid 1.
Proof.
  destruct (grid_coordinates example_grid 1 example_grid_wf)
    as [_ (H0 & Hm & Hb)].
  split; [exact H0|]. split; [exact Hm|].
  apply Hb. discriminate.
Defined.

(** ** Further properties of the continuous read-back *)

(** Before any call of [add_object] the read-back is [0] everywhere: on a
    newly constructed grid with [xi_min < xi_max], [get_continuous] returns
    [0] for every row of the grid and every [xi]. *)
Theorem get_continuous_fresh_grid (theta_range : list Q) (theta_steps : Z)
    (xi_range : list Q) (xi_steps : Z) (p : Projection.t)
    (theta_idx : Z) (xi : Q) :
  Projection.__init__ theta_range theta_steps xi_range xi_steps = Ok p ->
  Projection.xi_min p < Projection.xi_max p ->
  (0 <= theta_idx < theta_steps)%Z ->
  Projection.get_continuous p theta_idx xi = Ok 0.
Proof.
  intros E Hr Hi. pose proof (init_wf _ _ _ _ _ E) as Hwf.
  pose proof (wf_data p Hwf) as Hd.
  apply init_Ok_inv in E.
  destruct E as (? & ? & ? & ? & _ & _ & _ & _ & Ht & Hx & Ep).
  assert (Hdata : Projection.data p
                  = replicate (Z.to_nat theta_steps)
                      (replicate (Z.to_nat xi_steps) 0)) by now rewrite Ep.
  assert (Ets : Projection.theta_steps p = theta_steps) by now rewrite Ep.
  assert (Exs : Projection.xi_steps p = xi_steps) by now rewrite Ep.
  assert (Hzero : forall a b v, cell (Projection.data p) a b = Some v -> v = 0).
  { intros a b v. rewrite Hdata. unfold cell.
    intros Hc. destruct (replicate _ _ !! a) as [row|] eqn:Erow; [|discriminate].
    apply lookup_replicate_1 in Erow. destruct Erow as [-> _].
    apply lookup_replicate_1 in Hc. now destruct Hc. }
  unfold Projection.get_continuous.
  rewrite <- (Z2Nat.id theta_idx) by lia.
  assert (Hi' : (Z.to_nat theta_idx < Z.to_nat (Projection.theta_steps p))%nat)
    by lia.
  destruct (Qlt_le_dec xi (Projection.xi_min p)) as [H1|H1].
  { destruct (read_below p _ Hwf Hr Hd _ xi Hi' H1) as (v & Hc & ->).
    now rewrite (Hzero _ _ _ Hc). }
  destruct (Qlt_le_dec xi (Projection.xi_max p)) as [H2|H2].
  - destruct (read_inside p _ Hwf Hr Hd _ xi Hi' H1 H2) as (_ & v & Hc & ->).
    now rewrite (Hzero _ _ _ Hc).
  - destruct (read_above p _ Hwf Hr Hd _ xi Hi' H2) as (v & Hc & ->).
    now rewrite (Hzero _ _ _ Hc).
Qed.

Lemma get_continuous_fresh_grid_witness :
  Projection.get_continuous example_grid 1 (7 # 5) = Ok 0.
Proof.
  apply (get_continuous_fresh_grid [0; 3] 2 [-2; 2] 2 example_grid 1 (7 # 5)).
  - reflexivity.
  - reflexivity.
  - lia.
Defined.

Lemma axis_index_out_of_range (n : nat) (i : Z) :
  (Z.of_nat n <= i \/ i < - Z.of_nat n)%Z ->
  Np.axis_index n i = Raise IndexError.
Proof.
  intros Hi. unfold Np.axis_index.
  replace ((0 <=? i) && (i <? Z.of_nat n))%Z with false
    by (symmetry; apply andb_false_iff; lia).
  now replace ((- Z.of_nat n <=? i) && (i <? 0))%Z with false
    by (symmetry; apply andb_false_iff; lia).
Qed.

(** A row index beyond the grid on either side is refused: on a grid with a
    positive [xi_step_size] and an array of the grid's shape,
    [get_continuous_custom] raises [IndexError] for every
    [theta_idx >= theta_steps] and every [theta_idx < -theta_steps]. *)
Theorem get_continuous_custom_row_out_of_range (p : Projection.t)
    (d : Np.ndarray2) (theta_idx : Z) (xi : Q) :
  wf p ->
  0 < Projection.xi_step_size p ->
  shaped (Z.to_nat (Projection.theta_steps p))
    (Z.to_nat (Projection.xi_steps p)) d ->
  (Projection.theta_steps p <= theta_idx
   \/ theta_idx < - Projection.theta_steps p)%Z ->
  Projection.get_continuous_custom p theta_idx xi d = Raise IndexError.
Proof.
  intros Hwf Hs [Hrows _] Hi.
  pose proof (wf_theta_steps p Hwf).
  assert (Hg : forall j, Np.getitem d theta_idx j = Raise IndexError).
  { intros j. unfold Np.getitem, Np.getitem1.
    rewrite axis_index_out_of_range by lia. reflexivity. }
  unfold Projection.get_continuous_custom.
  rewrite div_nonzero by lra. rewrite bind_Ok.
  destruct (Py.lt _ 0); [|destruct (Py.le _ _)]; apply Hg.
Qed.

Lemma get_continuous_custom_row_out_of_range_witness :
  Projection.get_continuous_custom example_grid 2 0 [[1; 2]; [3; 4]]
  = Raise IndexError
  /\ Projection.get_continuous_custom example_grid (-3) 0 [[1; 2]; [3; 4]]
     = Raise IndexError.
Proof.
  assert (Hs : 0 < Projection.xi_step_size example_grid) by reflexivity.
  assert (Hd : shaped (Z.to_nat (Projection.theta_steps example_grid))
                 (Z.to_nat (Projection.xi_steps example_grid))
                 [[1; 2]; [3; 4]])
    by (split; [reflexivity | repeat constructor]).
  split.
  - apply (get_continuous_custom_row_out_of_range example_grid _ 2 0
             example_grid_wf Hs Hd). left. vm_compute. discriminate.
  - apply (get_continuous_custom_row_out_of_range example_grid _ (-3) 0
             example_grid_wf Hs Hd). right. reflexivity.
Defined.

(** ** Further properties of [add_object] *)

Lemma same_parameters_trans (p q r : Projection.t) :
  same_parameters p q -> same_parameters q r -> same_parameters p r.
Proof.
  unfold same_parameters.
  intros (A1 & A2 & A3 & A4 & A5 & A6 & A7 & A8)
         (B1 & B2 & B3 & B4 & B5 & B6 & B7 & B8).
  repeat split; congruence.
Qed.

(** On a newly constructed grid two objects can be added in either order:
    both orders return, and the two resulting arrays have the same shape
    and equal entries. *)
Theorem add_object_commutes (lib : NumLib) (theta_range : list Q)
    (theta_steps : Z) (xi_range : list Q) (xi_steps : Z) (p : Projection.t)
    (a b : AttenuationObject) (range_a range_b : Q * Q) :
  Projection.__init__ theta_range theta_steps xi_range xi_steps = Ok p ->
  exists p1 p2 q1 q2,
    Projection.add_object lib p a range_a = Ok p1
    /\ Projection.add_object lib p1 b range_b = Ok p2
    /\ Projection.add_object lib p b range_b = Ok q1
    /\ Projection.add_object lib q1 a range_a = Ok q2
    /\ shape (Projection.data p2) = shape (Projection.data q2)
    /\ forall i j v,
         cell (Projection.data p2) i j = Some v ->
         exists w, cell (Projection.data q2) i j = Some w /\ w == v.
Proof.
  intros E. pose proof (init_wf _ _ _ _ _ E) as Hwf.
  destruct (add_object_wf lib a range_a p Hwf) as (p1 & R1 & W1 & S1 & C1).
  destruct (add_object_wf lib b range_b p1 W1) as (p2 & R2 & _ & _ & C2).
  destruct (add_object_wf lib b range_b p Hwf) as (q1 & R3 & W3 & S3 & C3).
  destruct (add_object_wf lib a range_a q1 W3) as (q2 & R4 & _ & _ & C4).
  exists p1, p2, q1, q2. repeat (split; [assumption|]). split.
  - apply add_object_frame in R1, R2, R3, R4.
    destruct R1 as [_ E1], R2 as [_ E2], R3 as [_ E3], R4 as [_ E4].
    congruence.
  - intros i j v. rewrite C2, C1, C4, C3.
    rewrite (contribution_same_parameters _ _ _ p p1 i j S1).
    rewrite (contribution_same_parameters _ _ _ p q1 i j S3).
    destruct (cell (Projection.data p) i j) as [c|]; simpl; [|discriminate].
    intros [= <-]. eexists. split; [reflexivity|]. ring.
Qed.

Lemma add_object_commutes_witness :
  let a := ARectangle (Rectangle.__init__ (-1) 1 (-1) 1 1) in
  let b := ACircle (Circle.__init__ 0 0 1 3) in
  exists p2 q2 v w,
    (p1 ← Projection.add_object example_lib example_grid a (-2, 2);
     Projection.add_object example_lib p1 b (-1, 1)) = Ok p2
    /\ (q1 ← Projection.add_object example_lib example_grid b (-1, 1);
        Projection.add_object example_lib q1 a (-2, 2)) = Ok q2
    /\ cell (Projection.data p2) 0 1 = Some v
    /\ cell (Projection.data q2) 0 1 = Some w
    /\ w == v.
Proof.
  intros a b.
  destruct (add_object_commutes example_lib [0; 3] 2 [-2; 2] 2 example_grid
              a b (-2, 2) (-1, 1) example_grid_init)
    as (p1 & p2 & q1 & q2 & R1 & R2 & R3 & R4 & _ & Hc).
  destruct (cell (Projection.data p2) 0 1) as [v|] eqn:Ev.
  - destruct (Hc 0%nat 1%nat v Ev) as (w & Ew & Hw).
    exists p2, q2, v, w. rewrite R1, R3, !bind_Ok. auto.
  - exfalso. apply add_object_frame in R1, R2.
    destruct R1 as [_ E1], R2 as [_ E2]. rewrite E1 in E2.
    unfold cell in Ev. unfold shape in E2.
    destruct (Projection.data p2) as [|r0 [|r1 l]]; try discriminate E2.
    simpl in Ev. destruct r0 as [|c0 [|c1 r0]]; try discriminate E2.
    discriminate Ev.
Defined.

(** What [add_object] stores is what the read-back returns: after one call
    on a newly constructed grid with [xi_min < xi_max], [get_continuous] at
    the row [i] and any offset returns the line integral of the object at
    [(theta(i), xi(j))] for a column [j] of the grid, the first one for an
    offset below [xi_min] and the last one for an offset from [xi_max]
    on. *)
Theorem add_object_read_back (lib : NumLib) (theta_range : list Q)
    (theta_steps : Z) (xi_range : list Q) (xi_steps : Z) (p : Projection.t)
    (obj : AttenuationObject) (eta_range : Q * Q) (i : nat) (x : Q) :
  Projection.__init__ theta_range theta_steps xi_range xi_steps = Ok p ->
  Projection.xi_min p < Projection.xi_max p ->
  (i < Z.to_nat theta_steps)%nat ->
  exists p' j v,
    Projection.add_object lib p obj eta_range = Ok p'
    /\ (j < Z.to_nat xi_steps)%nat
    /\ Projection.get_continuous p' (Z.of_nat i) x = Ok v
    /\ v == project_attenuation lib obj (Projection.theta p (Z.of_nat i))
              (Projection.xi p (Z.of_nat j)) eta_range
    /\ (x < Projection.xi_min p -> j = 0%nat)
    /\ (Projection.xi_max p <= x -> j = (Z.to_nat xi_steps - 1)%nat).
Proof.
  intros E Hr Hi. pose proof (init_wf _ _ _ _ _ E) as Hwf.
  destruct (add_object_wf lib obj eta_range p Hwf) as (p' & R & W & S & C).
  apply init_Ok_inv in E.
  destruct E as (? & ? & ? & ? & _ & _ & _ & _ & _ & _ & Ep).
  assert (Ets : Projection.theta_steps p = theta_steps) by now rewrite Ep.
  assert (Exs : Projection.xi_steps p = xi_steps) by now rewrite Ep.
  pose proof S as (_ & _ & S3 & _ & S5 & S6 & S7 & _).
  destruct (read_column p' (Projection.data p') i x W)
    as (j & v & Hj & Hc & Hv & H0 & H1 & _).
  - now rewrite S5, S6.
  - apply (wf_data p' W).
  - rewrite S3. lia.
  - rewrite S7, Exs in Hj. rewrite S5 in H0. rewrite S6, S7, Exs in H1.
    exists p', j, v. split; [exact R|]. split; [exact Hj|].
    split; [exact Hv|]. split; [|split; assumption].
    assert (Hz : cell (Projection.data p) i j = Some 0)
      by (rewrite Ep; simpl; now apply cell_replicate).
    rewrite C, Hz in Hc. simpl in Hc. injection Hc as <-.
    unfold contribution. ring.
Qed.

Lemma add_object_read_back_witness :
  let obj := ARectangle (Rectangle.__init__ (-1) 1 (-1) 1 1) in
  exists p' v,
    Projection.add_object example_lib example_grid obj (-2, 2) = Ok p'
    /\ Projection.get_continuous p' 1 5 = Ok v
    /\ v == project_attenuation example_lib obj
              (Projection.theta example_grid 1)
              (Projection.xi example_grid 1) (-2, 2).
Proof.
  intros obj.
  destruct (add_object_read_back example_lib [0; 3] 2 [-2; 2] 2 example_grid
              obj (-2, 2) 1 5 example_grid_init)
    as (p' & j & v & R & _ & Hv & Ev & _ & H1);
    [reflexivity | vm_compute; lia |].
  exists p', v. split; [exact R|]. split; [exact Hv|].
  rewrite H1 in Ev by discriminate. exact Ev.
Defined.

(** ** The bounds kept by the constructor *)

Lemma fold_min2_spec (l : list Q) (a : Q) :
  fold_left Py.min2 l a ∈ a :: l
  /\ forall x, x ∈ a :: l -> fold_left Py.min2 l a <= x.
Proof.
  revert a. induction l as [|c l IH]; intros a; simpl.
  - split; [apply elem_of_cons; now left|].
    intros x Hx. apply elem_of_cons in Hx.
    destruct Hx as [->|Hx]; [apply Qle_refl | now apply not_elem_of_nil in Hx].
  - destruct (IH (Py.min2 a c)) as [Hin Hle]. split.
    + apply elem_of_cons in Hin. destruct Hin as [E|Hin].
      * rewrite E. unfold Py.min2. destruct (Py.lt c a).
        -- apply elem_of_cons. right. apply elem_of_cons. now left.
        -- apply elem_of_cons. now left.
      * apply elem_of_cons. right. apply elem_of_cons. now right.
    + intros x Hx.
      assert (Hm : fold_left Py.min2 l (Py.min2 a c) <= Py.min2 a c)
        by (apply Hle, elem_of_cons; now left).
      apply elem_of_cons in Hx. destruct Hx as [->|Hx].
      * eapply Qle_trans; [exact Hm | apply min2_le_l].
      * apply elem_of_cons in Hx. destruct Hx as [->|Hx].
        -- eapply Qle_trans; [exact Hm|]. unfold Py.min2.
           destruct (Py.lt c a) eqn:E; [apply Qle_refl|].
           now apply lt_false in E.
        -- apply Hle, elem_of_cons. now right.
Qed.

Lemma fold_max2_spec (l : list Q) (a : Q) :
  fold_left Py.max2 l a ∈ a :: l
  /\ forall x, x ∈ a :: l -> x <= fold_left Py.max2 l a.
Proof.
  revert a. induction l as [|c l IH]; intros a; simpl.
  - split; [apply elem_of_cons; now left|].
    intros x Hx. apply elem_of_cons in Hx.
    destruct Hx as [->|Hx]; [apply Qle_refl | now apply not_elem_of_nil in Hx].
  - destruct (IH (Py.max2 a c)) as [Hin Hle]. split.
    + apply elem_of_cons in Hin. destruct Hin as [E|Hin].
      * rewrite E. unfold Py.max2. destruct (Py.lt a c).
        -- apply elem_of_cons. right. apply elem_of_cons. now left.
        -- apply elem_of_cons. now left.
      * apply elem_of_cons. right. apply elem_of_cons. now right.
    + intros x Hx.
      assert (Hm : Py.max2 a c <= fold_left Py.max2 l (Py.max2 a c))
        by (apply Hle, elem_of_cons; now left).
      apply elem_of_cons in Hx. destruct Hx as [->|Hx].
      * eapply Qle_trans; [apply max2_ge_l | exact Hm].
      * apply elem_of_cons in Hx. destruct Hx as [->|Hx].
        -- eapply Qle_trans; [|exact Hm]. unfold Py.max2.
           destruct (Py.lt a c) eqn:E; [apply Qle_refl|].
           now apply lt_false in E.
        -- apply Hle, elem_of_cons. now right.
Qed.

(** Whatever the length and the order of the ranges given, the grid keeps
    their least and greatest entries: [theta_min] and [theta_max] are
    entries of [theta_range] and every entry of [theta_range] lies between
    them; likewise [xi_min] and [xi_max] for [xi_range]. *)
Theorem init_range_bounds (theta_range : list Q) (theta_steps : Z)
    (xi_range : list Q) (xi_steps : Z) (p : Projection.t) :
  Projection.__init__ theta_range theta_steps xi_range xi_steps = Ok p ->
  (Projection.theta_min p ∈ theta_range
   /\ Projection.theta_max p ∈ theta_range
   /\ forall t, t ∈ theta_range ->
        Projection.theta_min p <= t /\ t <= Projection.theta_max p)
  /\ (Projection.xi_min p ∈ xi_range
      /\ Projection.xi_max p ∈ xi_range
      /\ forall x, x ∈ xi_range ->
           Projection.xi_min p <= x /\ x <= Projection.xi_max p).
Proof.
  intros E. apply init_Ok_inv in E.
  destruct E as (tmin & tmax & xmin & xmax & T1 & T2 & X1 & X2 & _ & _ & ->).
  simpl.
  destruct theta_range as [|a tr]; [discriminate|].
  destruct xi_range as [|c xr]; [discriminate|].
  simpl in T1, T2, X1, X2.
  injection T1 as <-. injection T2 as <-.
  injection X1 as <-. injection X2 as <-.
  destruct (fold_min2_spec tr a) as [A1 A2].
  destruct (fold_max2_spec tr a) as [B1 B2].
  destruct (fold_min2_spec xr c) as [C1 C2].
  destruct (fold_max2_spec xr c) as [D1 D2].
  repeat split; auto.
Qed.

Lemma init_range_bounds_witness :
  exists p,
    Projection.__init__ [2; 0; 3; 1] 2 [-2; 2] 2 = Ok p
    /\ Projection.theta_min p <= 1 /\ 1 <= Projection.theta_max p.
Proof.
  eexists. split; [reflexivity|].
  eapply (init_range_bounds [2; 0; 3; 1] 2 [-2; 2] 2); [reflexivity|].
  apply list_elem_of_In. simpl. tauto.
Defined.
